(** * UNSW Predators: sampling and organising a camera-trap image subset

    A shallow embedding of [download_unsw.py] (metadata index, stratified
    sample, the organise step of [main]) and of [organize_unsw.py] (the
    case-insensitive reconciler and its final statistics), followed by the
    properties of the two scripts.

    Conventions.
    - A Python [dict] that the scripts iterate over is an insertion-ordered
      association list ([PyDict]); a [dict] that is only probed by key is a
      [gmap].
    - A raised Python exception is the [Raise] branch of [result].
    - File names are ASCII strings; [lower] folds the letters A-Z only.
    - The process-wide generator of the [random] module is explicit state;
      its core ([seed], [randbelow]) is a parameter of the development. *)

From Stdlib Require Import ZArith QArith Qround String Ascii.
From stdpp Require Import base gmap list strings fin_maps.

Set Warnings "-clear-no-such-hyp".

Local Open Scope string_scope.
Local Open Scope list_scope.
Local Open Scope nat_scope.

(** ** Exceptions and results *)

Inductive exn : Type :=
  | KeyError (key : Z)
  | IndexError
  | ValueError
  | ZeroDivisionError
  | FileNotFoundError (path : string).

Inductive result (A : Type) : Type :=
  | Ok (a : A)
  | Raise (e : exn).
Arguments Ok {A} a.
Arguments Raise {A} e.

Definition rbind {A B} (r : result A) (k : A → result B) : result B :=
  match r with
  | Ok a => k a
  | Raise e => Raise e
  end.

#[global] Instance result_bind : MBind result := λ A B k r, rbind r k.
#[global] Instance result_ret : MRet result := @Ok.

(** ** Insertion-ordered dictionaries

    [d[k] = v] keeps the position of a key that is already present and
    appends a new key at the end; iteration follows the list. *)

Module PyDict.
Section dict.
Context {K V : Type} `{EqDecision K}.

Fixpoint set (k : K) (v : V) (d : list (K * V)) : list (K * V) :=
  match d with
  | [] => [(k, v)]
  | (k', v') :: d' =>
      if decide (k = k') then (k, v) :: d' else (k', v') :: set k v d'
  end.

Fixpoint get (k : K) (d : list (K * V)) : option V :=
  match d with
  | [] => None
  | (k', v') :: d' => if decide (k = k') then Some v' else get k d'
  end.

Fixpoint del (k : K) (d : list (K * V)) : list (K * V) :=
  match d with
  | [] => []
  | (k', v') :: d' =>
      if decide (k = k') then d' else (k', v') :: del k d'
  end.

Definition keys (d : list (K * V)) : list K := d.*1.
End dict.
End PyDict.

(** ** Strings: [os.path.basename] and [str.lower]

    File names are byte strings. [lower] folds the letters A to Z, which is
    what [str.lower] does to a name of ASCII characters; the statements
    below use it as the function that makes the keys, and do not rest on
    which characters it folds. *)

(** [basename_from acc p]: [acc] is what follows the last ["/"] seen so far. *)
Fixpoint basename_from (acc p : string) : string :=
  match p with
  | EmptyString => acc
  | String c p' =>
      if Ascii.eqb c "/" then basename_from p' p' else basename_from acc p'
  end.

Definition basename (p : string) : string := basename_from p p.

Definition lower_ascii (c : ascii) : ascii :=
  let n := nat_of_ascii c in
  if (65 <=? n)%nat && (n <=? 90)%nat then ascii_of_nat (n + 32) else c.

Fixpoint lower (s : string) : string :=
  match s with
  | EmptyString => EmptyString
  | String c s' => String (lower_ascii c) (lower s')
  end.

(** ** [download_unsw.py]: configuration and metadata *)

Definition SAMPLE_FRACTION : Q := 1 # 2.
Definition RANDOM_SEED : Z := 42.
Definition DESIRED_CLASSES : gset string :=
  {[ "dingo"; "fox"; "goanna"; "possum"; "quoll" ]}.

Record category := { c_id : Z; c_name : string }.
Record image := { i_id : Z; i_file_name : string }.
Record annotation := { a_image_id : Z; a_category_id : Z }.
Record metadata := {
  categories : list category;
  images : list image;
  annotations : list annotation
}.

(** [class -> [file names]], the shape of [sampled_files.json]. *)
Abbreviation manifest := (list (string * list string)).

(** [{c['id']: c['name'] for c in data['categories']}] *)
Definition cat_id_to_name (data : metadata) : gmap Z string :=
  foldl (λ m c, <[c_id c := c_name c]> m) ∅ (categories data).

(** [{img['id']: img['file_name'] for img in data['images']}] *)
Definition img_id_to_file (data : metadata) : gmap Z string :=
  foldl (λ m i, <[i_id i := i_file_name i]> m) ∅ (images data).

(** The comprehension that builds [file_to_class]: for each annotation the
    key [img_id_to_file[ann['image_id']]] is evaluated, then the value
    [cat_id_to_name[ann['category_id']]]; a missing id raises [KeyError]. *)
Fixpoint fold_annotations (cats imgs : gmap Z string)
    (anns : list annotation) (acc : list (string * string))
    : result (list (string * string)) :=
  match anns with
  | [] => Ok acc
  | ann :: rest =>
      match imgs !! a_image_id ann with
      | None => Raise (KeyError (a_image_id ann))
      | Some fname =>
          match cats !! a_category_id ann with
          | None => Raise (KeyError (a_category_id ann))
          | Some cls => fold_annotations cats imgs rest (PyDict.set fname cls acc)
          end
      end
  end.

Definition file_to_class (data : metadata) : result (list (string * string)) :=
  fold_annotations (cat_id_to_name data) (img_id_to_file data)
    (annotations data) [].

(** [class_to_files[cls].append(fname)] on a [defaultdict(list)]. *)
Definition append_file (cls fname : string) (d : manifest) : manifest :=
  PyDict.set cls (default [] (PyDict.get cls d) ++ [fname]) d.

Definition class_to_files (ftc : list (string * string)) : manifest :=
  foldl (λ d '(fname, cls),
           if decide (cls ∈ DESIRED_CLASSES) then append_file cls fname d else d)
        [] ftc.

(** [int(len(files) * SAMPLE_FRACTION)]: the product with 0.5 is exact in
    binary floating point, so the truncation is that of the rational. *)
Definition int_times_fraction (n : nat) : nat :=
  Z.to_nat (Qfloor (inject_Z (Z.of_nat n) * SAMPLE_FRACTION)).

Definition sample_size (files : list string) : nat :=
  Nat.max 1 (int_times_fraction (length files)).

(** ** [random.sample] and [get_sampled_files]

    The generator of the [random] module: [seed] resets its state and
    [randbelow g n] returns a number below [n] with the next state. *)

Section sampler.
Context {G : Type} (seed : Z → G) (randbelow : G → nat → nat * G).

(** The selection loop of [random.sample] over a copy [pool] of the
    population, [m] being the number of slots not yet drawn ([n - i]):
    [j = randbelow(n - i); result[i] = pool[j]; pool[j] = pool[n - i - 1]].
    This is the branch the library takes when the population is small
    next to the sample, which is so for every request of the script: it
    asks for [k = max(1, n // 2)] of [n] names. *)
Fixpoint sample_pool {A} (pool : list A) (m k : nat) (g : G)
    : result (list A * G) :=
  match k with
  | 0 => Ok ([], g)
  | S k' =>
      let '(j, g1) := randbelow g m in
      match pool !! j, pool !! (m - 1) with
      | Some x, Some y =>
          '(rest, g2) ← sample_pool (<[j := y]> pool) (m - 1) k' g1;
          Ok (x :: rest, g2)
      | _, _ => Raise IndexError
      end
  end.

(** [random.sample(population, k)]: [ValueError] when the sample is larger
    than the population. *)
Definition sample {A} (population : list A) (k : nat) (g : G)
    : result (list A * G) :=
  let n := length population in
  if decide (k ≤ n)%nat then sample_pool population n k g else Raise ValueError.

(** The loop [for cls, files in class_to_files.items()] that fills
    [sampled]; the generator is threaded through the classes. *)
Fixpoint sample_classes (items : manifest) (sampled : manifest) (g : G)
    : result (manifest * G) :=
  match items with
  | [] => Ok (sampled, g)
  | (cls, files) :: rest =>
      let n := sample_size files in
      '(s, g') ← sample files n g;
      sample_classes rest (PyDict.set cls s sampled) g'
  end.

(** What the sampler reads and writes: the document stored in
    [sampled_files.json], if the file exists, and the generator. *)
Record world := { sample_file : option manifest; rng : G }.

Definition get_sampled_files (data : metadata) (w : world)
    : result (manifest * world) :=
  match sample_file w with
  | Some persisted => Ok (persisted, w)
  | None =>
      let g := seed RANDOM_SEED in
      ftc ← file_to_class data;
      '(sampled, g') ← sample_classes (class_to_files ftc) [] g;
      Ok (sampled, {| sample_file := Some sampled; rng := g' |})
  end.
End sampler.

Arguments world : clear implicits.
Arguments sample_file {G} w.
Arguments rng {G} w.

(** A linear congruential generator, used to run the sampler on examples. *)
Definition lcg_seed (s : Z) : N := Z.to_N s.
Definition lcg_randbelow (g : N) (n : nat) : nat * N :=
  (N.to_nat (g mod N.of_nat n), (g * 1103515245 + 12345) mod 2147483648)%N.

(** The pure selection along a given list of draws, and the draws that are
    in range for [m] remaining slots. *)
Fixpoint pick {A} (pool : list A) (m : nat) (js : list nat) : option (list A) :=
  match js with
  | [] => Some []
  | j :: js' =>
      match pool !! j, pool !! (m - 1) with
      | Some x, Some y => cons x <$> pick (<[j := y]> pool) (m - 1) js'
      | _, _ => None
      end
  end.

Fixpoint draws_in_range (m : nat) (js : list nat) : Prop :=
  match js with
  | [] => True
  | j :: js' => (j < m)%nat ∧ draws_in_range (m - 1) js'
  end.

(** The numbers that the selection loop asks of the generator in state [g]
    for [k] of [m] slots, with the state it leaves; and the state in which
    the loop over the classes has left the generator after [items]. *)
Fixpoint draws {G} (randbelow : G → nat → nat * G) (g : G) (m k : nat)
    : list nat * G :=
  match k with
  | 0 => ([], g)
  | S k' =>
      let '(j, g1) := randbelow g m in
      let '(js, g2) := draws randbelow g1 (m - 1) k' in
      (j :: js, g2)
  end.

Fixpoint draws_classes {G} (randbelow : G → nat → nat * G) (items : manifest)
    (g : G) : G :=
  match items with
  | [] => g
  | (_, files) :: rest =>
      draws_classes randbelow rest
        (draws randbelow g (length files) (sample_size files)).2
  end.

(** The candidates of a class in the index, in index order. *)
Definition candidates (cls : string) (ftc : list (string * string)) : list string :=
  (filter (λ p, p.2 = cls) ftc).*1.

(** ** The staging directory and the organised tree

    An entry is described by what the scripts observe of it. The staging
    directory [unsw_raw_images] lists its entries in scan order; [main],
    which looks paths up, finds an entry of a sub-directory under its path
    relative to the staging directory. The tree [unsw_images_organized]
    maps a class directory to its entries: the scripts put files there, and
    there is no directory below a class directory. Class names are single
    path components. *)

Record node := { is_file : bool; st_size : N }.

Record fs := {
  raw_dir : list (string * node);
  base_dir : gmap string (gmap string node)
}.

(** [os.makedirs(os.path.join(base_dir, cls), exist_ok=True)] *)
Definition makedirs (cls : string) (base : gmap string (gmap string node))
    : gmap string (gmap string node) :=
  match base !! cls with
  | Some _ => base
  | None => <[cls := ∅]> base
  end.

(** [shutil.move(raw_dir/name, base_dir/cls/name)] for an entry name, that
    is a name without directory part: the entry leaves the staging directory
    and replaces the file that had that name in the class directory; it
    fails when the source or the class directory is absent. *)
Definition shutil_move (name cls : string) (f : fs) : result fs :=
  match PyDict.get name (raw_dir f), base_dir f !! cls with
  | Some nd, Some d =>
      Ok {| raw_dir := PyDict.del name (raw_dir f);
            base_dir := <[cls := <[name := nd]> d]> (base_dir f) |}
  | _, _ => Raise (FileNotFoundError name)
  end.

(** ** [organize_unsw.py] *)

(** [expected_files[basename.lower()] = (full_path, cls)] *)
Definition expected_files (sampled_by_class : manifest)
    : gmap string (string * string) :=
  foldl (λ exp '(cls, paths),
           foldl (λ exp full_path,
                    <[lower (basename full_path) := (full_path, cls)]> exp)
                 exp paths)
        ∅ sampled_by_class.

(** [actual_files[f.name.lower()] = f.name] for the regular files. *)
Definition actual_files (raw : list (string * node)) : list (string * string) :=
  foldl (λ d '(name, nd),
           if is_file nd then PyDict.set (lower name) name d else d)
        [] raw.

(** The match-and-move loop over [actual_files.items()]. A failing move
    stops the script with the tree as it is at that point. *)
Fixpoint move_loop (expected : gmap string (string * string))
    (items : list (string * string)) (f : fs) (moved : nat)
    : fs * result nat :=
  match items with
  | [] => (f, Ok moved)
  | (lower_name, real_name) :: rest =>
      match expected !! lower_name with
      | None => move_loop expected rest f moved
      | Some (full_path, cls) =>
          match PyDict.get real_name (raw_dir f) with
          | Some nd =>
              if (0 <? st_size nd)%N then
                match shutil_move real_name cls f with
                | Ok f' => move_loop expected rest f' (S moved)
                | Raise e => (f, Raise e)
                end
              else move_loop expected rest f moved
          | None => move_loop expected rest f moved
          end
      end
  end.

Record report := { moved : Z; missing : Z; coveragePct : Q }.

(** Python's [a / b] on integers. *)
Definition truediv (a b : Z) : result Q :=
  if decide (b = 0%Z) then Raise ZeroDivisionError
  else Ok (inject_Z a / inject_Z b)%Q.

(** The final statistics; the coverage is the exact quotient that the
    script prints to one decimal. *)
Definition final_stats (expected : gmap string (string * string))
    (moved : nat) : result report :=
  let total_expected := Z.of_nat (size expected) in
  let missing := (total_expected - Z.of_nat moved)%Z in
  pct ← truediv (100 * Z.of_nat moved) total_expected;
  Ok {| moved := Z.of_nat moved; missing := missing; coveragePct := pct |}.

(** Lines 15-48: indexes, output directories, moves. *)
Definition organize_files (sampled_by_class : manifest) (f : fs)
    : fs * result nat :=
  let expected := expected_files sampled_by_class in
  let actual := actual_files (raw_dir f) in
  let base := foldl (λ b cls, makedirs cls b) (base_dir f)
                    (PyDict.keys sampled_by_class) in
  move_loop expected actual {| raw_dir := raw_dir f; base_dir := base |} 0.

(** The whole script, from the stored manifest to the report. *)
Definition organize_unsw (sample_file : option manifest) (f : fs)
    : fs * result report :=
  match sample_file with
  | None => (f, Raise (FileNotFoundError "sampled_files.json"))
  | Some sampled_by_class =>
      let '(f', r) := organize_files sampled_by_class f in
      (f', moved ← r; final_stats (expected_files sampled_by_class) moved)
  end.

(** ** The organise step of [main] in [download_unsw.py] *)

(** The path has a separator. *)
Fixpoint has_sep (p : string) : bool :=
  match p with
  | EmptyString => false
  | String c p' => Ascii.eqb c "/" || has_sep p'
  end.

(** [for fname in files]: the source [raw_dir/fname] is looked up by the
    manifest path as it is and, whenever it exists, moved to
    [base_dir/cls/fname]. The destination of a path with a directory part
    is below [base_dir/cls/<dir>], which nothing makes and the tree does not
    have: that move fails like the move into a class without directory. *)
Fixpoint main_move_files (cls : string) (files : list string) (f : fs)
    (moved : nat) : fs * result nat :=
  match files with
  | [] => (f, Ok moved)
  | fname :: rest =>
      match PyDict.get fname (raw_dir f) with
      | Some _ =>
          if has_sep fname then (f, Raise (FileNotFoundError fname))
          else
            match shutil_move fname cls f with
            | Ok f' => main_move_files cls rest f' (S moved)
            | Raise e => (f, Raise e)
            end
      | None => main_move_files cls rest f moved
      end
  end.

Fixpoint main_move_classes (items : manifest) (f : fs) (moved : nat)
    : fs * result nat :=
  match items with
  | [] => (f, Ok moved)
  | (cls, files) :: rest =>
      match main_move_files cls files f moved with
      | (f', Ok moved') => main_move_classes rest f' moved'
      | (f', Raise e) => (f', Raise e)
      end
  end.

Definition main_organize (sampled_by_class : manifest) (f : fs)
    : fs * result nat :=
  let base := foldr makedirs (base_dir f) (elements DESIRED_CLASSES) in
  main_move_classes sampled_by_class
    {| raw_dir := raw_dir f; base_dir := base |} 0.

(** ** Vocabulary of the statements *)

(** An annotation whose image id or category id is in no record of the
    respective table. *)
Definition dangling (data : metadata) (ann : annotation) : Prop :=
  a_image_id ann ∉ (i_id <$> images data)
  ∨ a_category_id ann ∉ (c_id <$> categories data).

(** The file name an annotation is about, once its image id is resolved. *)
Definition annotated_file (data : metadata) (ann : annotation) : option string :=
  img_id_to_file data !! a_image_id ann.

(** The entry [name] of class directory [cls] in the organised tree. *)
Definition tree_get (base : gmap string (gmap string node))
    (cls name : string) : option node :=
  base !! cls ≫= λ d, d !! name.

(** Every class of the expected index has its directory. *)
Definition dirs_ready (expected : gmap string (string * string))
    (base : gmap string (gmap string node)) : Prop :=
  ∀ key full_path cls,
    expected !! key = Some (full_path, cls) → is_Some (base !! cls).

(** The staged entry [name], a non-empty [nd], is an item of the loop whose
    key the expected index sends to class [cls]. *)
Definition moved_by (expected : gmap string (string * string))
    (items : list (string * string)) (raw : list (string * node))
    (name cls : string) (nd : node) : Prop :=
  ∃ lower_name full_path,
    (lower_name, name) ∈ items
    ∧ expected !! lower_name = Some (full_path, cls)
    ∧ PyDict.get name raw = Some nd
    ∧ (0 < st_size nd)%N.

(** No two staged regular files have names that are equal ignoring case. *)
Definition case_distinct (raw : list (string * node)) : Prop :=
  ∀ name1 nd1 name2 nd2,
    (name1, nd1) ∈ raw → (name2, nd2) ∈ raw →
    is_file nd1 = true → is_file nd2 = true →
    lower name1 = lower name2 → name1 = name2.

(** ** Loop bodies, named for the proofs *)

Definition class_step (d : manifest) (p : string * string) : manifest :=
  let '(fname, cls) := p in
  if decide (cls ∈ DESIRED_CLASSES) then append_file cls fname d else d.

Definition scan_step (d : list (string * string)) (e : string * node)
    : list (string * string) :=
  let '(name, nd) := e in
  if is_file nd then PyDict.set (lower name) name d else d.

Definition expect_step (cls : string) (exp : gmap string (string * string))
    (full_path : string) : gmap string (string * string) :=
  <[lower (basename full_path) := (full_path, cls)]> exp.

Definition expect_class (exp : gmap string (string * string))
    (e : string * list string) : gmap string (string * string) :=
  let '(cls, paths) := e in foldl (expect_step cls) exp paths.

(** What one run of the loop does to the staging directory and the tree. *)
Definition loop_outcome (exp : gmap string (string * string))
    (items : list (string * string)) (f f' : fs) (n : nat) : Prop :=
  length (raw_dir f) = n + length (raw_dir f')
  ∧ raw_dir f' `sublist_of` raw_dir f
  ∧ n ≤ length (filter (λ it, is_Some (exp !! it.1)) items)
  ∧ dom (base_dir f') = dom (base_dir f)
  ∧ (∀ name, (∀ cls nd, ¬ moved_by exp items (raw_dir f) name cls nd) →
       PyDict.get name (raw_dir f') = PyDict.get name (raw_dir f)
       ∧ ∀ cls, tree_get (base_dir f') cls name
                = tree_get (base_dir f) cls name)
  ∧ (∀ name cls nd, moved_by exp items (raw_dir f) name cls nd →
       PyDict.get name (raw_dir f') = None
       ∧ tree_get (base_dir f') cls name = Some nd).

(** ** Sample inputs *)

Definition example_metadata : metadata := {|
  categories := [ {| c_id := 1; c_name := "fox" |};
                  {| c_id := 2; c_name := "dingo" |};
                  {| c_id := 3; c_name := "cat" |} ];
  images := [ {| i_id := 10; i_file_name := "x/a.jpg" |};
              {| i_id := 11; i_file_name := "b.jpg" |};
              {| i_id := 12; i_file_name := "c.jpg" |};
              {| i_id := 13; i_file_name := "d.jpg" |};
              {| i_id := 14; i_file_name := "e.jpg" |};
              {| i_id := 15; i_file_name := "f.jpg" |} ];
  annotations := [ {| a_image_id := 10; a_category_id := 1 |};
                   {| a_image_id := 11; a_category_id := 1 |};
                   {| a_image_id := 12; a_category_id := 2 |};
                   {| a_image_id := 13; a_category_id := 1 |};
                   {| a_image_id := 14; a_category_id := 3 |};
                   {| a_image_id := 10; a_category_id := 2 |};
                   {| a_image_id := 14; a_category_id := 1 |};
                   {| a_image_id := 15; a_category_id := 1 |} ]
|}%Z.

(** The same index as [example_metadata], from other ids. *)
Definition example_metadata' : metadata := {|
  categories := [ {| c_id := 7; c_name := "dingo" |};
                  {| c_id := 8; c_name := "fox" |} ];
  images := [ {| i_id := 1; i_file_name := "x/a.jpg" |};
              {| i_id := 2; i_file_name := "b.jpg" |};
              {| i_id := 3; i_file_name := "c.jpg" |};
              {| i_id := 4; i_file_name := "d.jpg" |};
              {| i_id := 5; i_file_name := "e.jpg" |};
              {| i_id := 6; i_file_name := "f.jpg" |} ];
  annotations := [ {| a_image_id := 1; a_category_id := 7 |};
                   {| a_image_id := 2; a_category_id := 8 |};
                   {| a_image_id := 3; a_category_id := 7 |};
                   {| a_image_id := 4; a_category_id := 8 |};
                   {| a_image_id := 5; a_category_id := 8 |};
                   {| a_image_id := 6; a_category_id := 8 |} ]
|}%Z.

Definition example_index : list (string * string) :=
  [ ("x/a.jpg", "dingo"); ("b.jpg", "fox"); ("c.jpg", "dingo");
    ("d.jpg", "fox"); ("e.jpg", "fox"); ("f.jpg", "fox") ].

Definition fresh_world (g : N) : world N := {| sample_file := None; rng := g |}.

Definition regular (size : N) : node := {| is_file := true; st_size := size |}.

(** The scenario of three staged files, one of them empty. *)
Definition example_manifest : manifest :=
  [ ("fox", ["a.jpg"; "b.jpg"]); ("dingo", ["c.jpg"]) ].
Definition example_fs : fs := {|
  raw_dir := [ ("a.jpg", regular 10); ("B.JPG", regular 0); ("c.jpg", regular 5) ];
  base_dir := ∅
|}.

(** One expected file, staged with no content. *)
Definition zero_byte_manifest : manifest := [ ("fox", ["b.jpg"]) ].
Definition zero_byte_fs : fs := {|
  raw_dir := [ ("b.jpg", regular 0) ];
  base_dir := ∅
|}.

(** A staged name in another case than its manifest entry. *)
Definition cased_manifest : manifest := [ ("fox", ["some/path/fox_001.jpg"]) ].
Definition cased_fs : fs := {|
  raw_dir := [ ("Fox_001.JPG", regular 7) ];
  base_dir := ∅
|}.

(** An empty staged file, a base name listed under two classes, and two
    staged names that differ in case only. *)
Definition clash_manifest : manifest :=
  [ ("fox", ["some/path/fox_001.jpg"; "p/a.jpg"; "z.jpg"]);
    ("dingo", ["q/A.JPG"]) ].
Definition clash_fs : fs := {|
  raw_dir := [ ("Fox_001.JPG", regular 0); ("a.jpg", regular 5);
               ("Z.jpg", regular 3); ("z.JPG", regular 4) ];
  base_dir := ∅
|}.


(** Two staged names that differ in case only, for one manifest entry. *)
Definition twin_manifest : manifest := [ ("fox", ["a.jpg"]) ].
Definition twin_fs : fs := {|
  raw_dir := [ ("A.jpg", regular 10); ("a.jpg", regular 5) ];
  base_dir := ∅
|}.

(** ** The download list and the progress monitor of [download_unsw.py] *)

(** [[f for files in sampled_by_class.values() for f in files]] *)
Definition all_files (sampled_by_class : manifest) : list string :=
  sampled_by_class ≫= λ e, e.2.

Definition IMAGES_URI : string :=
  "gs://public-datasets-lila/unsw-predators/images/".
Definition newline : string := String (ascii_of_nat 10) EmptyString.

(** One [f.write] of [download_list.txt] per sampled file. *)
Definition download_line (fname : string) : string :=
  String.append IMAGES_URI (String.append fname newline).

Definition download_list (sampled_by_class : manifest) : list string :=
  download_line <$> all_files sampled_by_class.

(** [(Path(raw_dir) / f).exists()] and [os.path.exists(os.path.join(raw_dir,
    fname))], for a relative name. *)
Definition staged (raw : list (string * node)) (f : string) : bool :=
  match PyDict.get f raw with
  | Some _ => true
  | None => false
  end.

(** [sum(1 for f in files if (Path(raw_dir) / f).exists())] *)
Definition count_done (raw : list (string * node)) (files : list string) : nat :=
  length (filter (λ f, staged raw f = true) files).

(** [100 * done / total if total > 0 else 0] *)
Definition guarded_pct (done total : nat) : result Q :=
  if decide (0 < total) then truediv (100 * Z.of_nat done) (Z.of_nat total)
  else Ok 0%Q.

Record class_line := {
  line_cls : string;
  line_done : nat;
  line_total : nat;
  line_pct : Q
}.

Record poll_report := {
  lines : list class_line;
  total_done : nat;
  total_expected : nat;
  overall_pct : Q
}.

(** The loop over the classes in one round of [monitor_progress]. *)
Fixpoint poll_classes (raw : list (string * node)) (items : manifest)
    (total_done total_expected : nat) (lines : list class_line)
    : result (nat * nat * list class_line) :=
  match items with
  | [] => Ok (total_done, total_expected, lines)
  | (cls, files) :: rest =>
      let done := count_done raw files in
      let total := length files in
      pct ← guarded_pct done total;
      poll_classes raw rest (total_done + done) (total_expected + total)
        (lines ++ [ {| line_cls := cls; line_done := done;
                       line_total := total; line_pct := pct |} ])
  end.

(** One round of the [while True] loop, on the staging directory as it is
    when the monitor wakes up. *)
Definition poll (sampled_by_class : manifest) (raw : list (string * node))
    : result poll_report :=
  '(total_done, total_expected, lines) ← poll_classes raw sampled_by_class 0 0 [];
  overall ← guarded_pct total_done total_expected;
  Ok {| lines := lines; total_done := total_done;
        total_expected := total_expected; overall_pct := overall |}.

(** [monitor_progress] along the successive states in which it finds the
    staging directory: the reports it prints, and whether it has left the
    loop ([total_done >= total_expected]) or is still polling when the
    observations end. *)
Fixpoint monitor_progress (sampled_by_class : manifest)
    (observations : list (list (string * node)))
    : result (list poll_report * bool) :=
  match observations with
  | [] => Ok ([], false)
  | raw :: later =>
      r ← poll sampled_by_class raw;
      if decide (total_expected r ≤ total_done r) then Ok ([r], true)
      else
        '(rs, finished) ← monitor_progress sampled_by_class later;
        Ok (r :: rs, finished)
  end.

(** ** More vocabulary *)

(** The first class of the manifest that lists [name]. *)
Fixpoint first_class (items : manifest) (name : string) : option string :=
  match items with
  | [] => None
  | (cls, files) :: rest =>
      if decide (name ∈ files) then Some cls else first_class rest name
  end.

(** The manifest with every path cut down to its base name. *)
Definition base_names (sampled_by_class : manifest) : manifest :=
  (λ e : string * list string, (e.1, basename <$> e.2)) <$> sampled_by_class.

(** The manifest entries in the order of the loops over them. *)
Definition entries (sampled_by_class : manifest) : list (string * string) :=
  sampled_by_class ≫= λ e, (λ full_path, (full_path, e.1)) <$> e.2.

(** The item of the match-and-move loop is moved: its key is expected and
    its file is there and not empty. *)
Definition movable (expected : gmap string (string * string))
    (raw : list (string * node)) (item : string * string) : bool :=
  match expected !! item.1, PyDict.get item.2 raw with
  | Some _, Some nd => (0 <? st_size nd)%N
  | _, _ => false
  end.

(** Every file of the manifest is in the staging directory. *)
Definition all_staged (sampled_by_class : manifest)
    (raw : list (string * node)) : Prop :=
  ∀ f, f ∈ all_files sampled_by_class → staged raw f = true.

(** The destination of every staged file that the manifest lists has its
    directory: the name has no directory part, and the class is one of
    [DESIRED_CLASSES] or is in the tree. *)
Definition destinations_ready (sampled_by_class : manifest) (f : fs) : Prop :=
  ∀ name cls,
    first_class sampled_by_class name = Some cls →
    staged (raw_dir f) name = true →
    has_sep name = false
    ∧ (cls ∈ DESIRED_CLASSES ∨ is_Some (base_dir f !! cls)).

(** The components of a path; a directory entry name is one component,
    neither empty nor a dot name, and a relative path is made of such. *)
Fixpoint components_from (cur p : string) : list string :=
  match p with
  | EmptyString => [cur]
  | String c p' =>
      if Ascii.eqb c "/" then cur :: components_from EmptyString p'
      else components_from (cur +:+ String c EmptyString) p'
  end.

Definition component (s : string) : bool :=
  negb (has_sep s) && bool_decide (s ≠ EmptyString)
  && bool_decide (s ≠ ".") && bool_decide (s ≠ "..").

Definition relative_path (p : string) : bool :=
  forallb component (components_from EmptyString p).

(** A manifest that names its classes by a directory name and its files by
    a relative path; a tree of regular files. *)
Definition well_named (sampled_by_class : manifest) : Prop :=
  Forall (λ e, component e.1 = true
               ∧ Forall (λ p, relative_path p = true) e.2) sampled_by_class.

Definition tree_of_files (base : gmap string (gmap string node)) : Prop :=
  ∀ cls d, base !! cls = Some d →
    component cls = true
    ∧ ∀ name nd, d !! name = Some nd →
        component name = true ∧ is_file nd = true.

(** A staging directory as the copy tool fills it: every name once, regular
    files only, and no sub-directories. *)
Definition staging_of_files (raw : list (string * node)) : Prop :=
  NoDup (PyDict.keys raw)
  ∧ Forall (λ e, relative_path e.1 = true ∧ is_file e.2 = true) raw.

Definition flat (raw : list (string * node)) : Prop :=
  Forall (λ e, has_sep e.1 = false) raw.

(** The inputs for which the moves of [main] are modelled, sub-directories
    of the staging directory included. The manifest is well named and the
    tree is one of files. The staging directory has every path once, a
    relative path; and a path that the manifest lists is a file: where it is
    staged it is a regular file, and no staged path lies below it. *)
Definition listed_file (name : string) (e : string * node) : bool :=
  (if decide (e.1 = name) then is_file e.2 else true)
  && negb (String.prefix (name +:+ "/") e.1).

Definition moves_files (sampled_by_class : manifest) (f : fs) : Prop :=
  well_named sampled_by_class
  ∧ NoDup (PyDict.keys (raw_dir f))
  ∧ Forall (λ e, relative_path e.1 = true) (raw_dir f)
  ∧ Forall (λ name, Forall (λ e, listed_file name e = true) (raw_dir f))
      (all_files sampled_by_class)
  ∧ tree_of_files (base_dir f).

(** What the organise step of [main] has done when it completes: [target]
    gives the class under which a name is moved. *)
Definition main_outcome (target : string → option string) (f f' : fs)
    (n : nat) : Prop :=
  length (raw_dir f) = n + length (raw_dir f')
  ∧ raw_dir f' `sublist_of` raw_dir f
  ∧ dom (base_dir f') = dom (base_dir f)
  ∧ (∀ name cls nd,
       target name = Some cls → PyDict.get name (raw_dir f) = Some nd →
       PyDict.get name (raw_dir f') = None
       ∧ tree_get (base_dir f') cls name = Some nd
       ∧ ∀ c, c ≠ cls →
           tree_get (base_dir f') c name = tree_get (base_dir f) c name)
  ∧ (∀ name,
       target name = None ∨ PyDict.get name (raw_dir f) = None →
       PyDict.get name (raw_dir f') = PyDict.get name (raw_dir f)
       ∧ ∀ c, tree_get (base_dir f') c name = tree_get (base_dir f) c name).

(** The class under which the loop over one class moves a name. *)
Definition class_target (cls : string) (files : list string) (name : string)
    : option string :=
  if decide (name ∈ files) then Some cls else None.

(** ** [main] of [download_unsw.py]

    From the metadata that [download_metadata] has returned: the sample,
    the download list, the external copy, the organise step. The monitor
    thread only reads the staging directory and prints, and is left out. *)

Section main.
Context {G : Type} (seed : Z → G) (randbelow : G → nat → nat * G).

(** [subprocess.run(["gsutil", "-m", "cp", "-I", raw_dir + "/"], stdin=...,
    check=False)] on the download list and the staging directory: [None]
    when the executable is not found, otherwise the staging directory as
    the tool leaves it, whatever its exit code. *)
Context (gsutil : list string → list (string * node)
                  → option (list (string * node))).

(** What [main] reads and writes: the sampler's world, the two
    directories, and [download_list.txt]. *)
Record disk := {
  disk_world : world G;
  disk_fs : fs;
  disk_download_list : option (list string)
}.

(** The result is the number of files organised, or [None] when [main]
    returns early because the copy tool is missing. The sampler fails only
    after [random.seed], so that a failure leaves the generator seeded. *)
Definition main (data : metadata) (d : disk) : disk * result (option nat) :=
  match get_sampled_files seed randbelow data (disk_world d) with
  | Raise e =>
      ({| disk_world := {| sample_file := sample_file (disk_world d);
                           rng := seed RANDOM_SEED |};
          disk_fs := disk_fs d;
          disk_download_list := disk_download_list d |}, Raise e)
  | Ok (sampled_by_class, w') =>
      let urls := download_list sampled_by_class in
      match gsutil urls (raw_dir (disk_fs d)) with
      | None =>
          ({| disk_world := w'; disk_fs := disk_fs d;
              disk_download_list := Some urls |}, Ok None)
      | Some raw' =>
          let '(f', r) :=
            main_organize sampled_by_class
              {| raw_dir := raw'; base_dir := base_dir (disk_fs d) |} in
          ({| disk_world := w'; disk_fs := f';
              disk_download_list := Some urls |},
           moved ← r; Ok (Some moved))
      end
  end.
End main.

Arguments disk : clear implicits.
Arguments disk_world {G} d.
Arguments disk_fs {G} d.
Arguments disk_download_list {G} d.

(** A copy tool that delivers every requested file that is not there yet,
    with four bytes each, under the base name of what follows the bucket
    address when that is a file name; and the absent tool. *)
Definition fetch_name (line : string) : string :=
  String.substring (String.length IMAGES_URI)
    (String.length line - String.length IMAGES_URI - 1) line.

Definition example_gsutil (urls : list string) (raw : list (string * node))
    : option (list (string * node)) :=
  Some (foldl (λ r line,
                 let name := basename (fetch_name line) in
                 if relative_path name && negb (has_sep name) then
                   match PyDict.get name r with
                   | Some _ => r
                   | None => PyDict.set name (regular 4) r
                   end
                 else r) raw urls).

Definition no_gsutil (urls : list string) (raw : list (string * node))
    : option (list (string * node)) := None.


Definition fresh_disk : disk N := {|
  disk_world := fresh_world 7;
  disk_fs := {| raw_dir := []; base_dir := ∅ |};
  disk_download_list := None
|}.

(** * Properties *)

(** ** Arithmetic of the sample size *)

Lemma int_times_fraction_half n : int_times_fraction n = n `div` 2.
Proof.
  unfold int_times_fraction, SAMPLE_FRACTION, Qfloor, Qmult, inject_Z.
  cbn [Qnum Qden]. rewrite Z.mul_1_r.
  change (Z.pos (1 * 2)) with (Z.of_nat 2).
  rewrite <- Nat2Z.inj_div. apply Nat2Z.id.
Qed.

(** ** Insertion-ordered dictionaries *)

Section dict_facts.
Context {K V : Type} `{EqDecision K}.
Implicit Types (d : list (K * V)) (k : K) (v : V).

Lemma get_set d k k' v :
  PyDict.get k' (PyDict.set k v d)
  = if decide (k' = k) then Some v else PyDict.get k' d.
Proof.
  induction d as [|[k0 v0] d IH]; simpl.
  - repeat case_decide; congruence.
  - destruct (decide (k = k0)), (decide (k' = k0)), (decide (k' = k));
      simpl; repeat case_decide; congruence.
Qed.

Lemma get_set_eq d k v : PyDict.get k (PyDict.set k v d) = Some v.
Proof. rewrite get_set. by case_decide. Qed.

Lemma get_set_ne d k k' v :
  k' ≠ k → PyDict.get k' (PyDict.set k v d) = PyDict.get k' d.
Proof. intros. rewrite get_set. by case_decide. Qed.

Lemma get_None d k : PyDict.get k d = None ↔ k ∉ PyDict.keys d.
Proof.
  unfold PyDict.keys. induction d as [|[k0 v0] d IH]; simpl.
  - split; [intros _; apply not_elem_of_nil | done].
  - rewrite not_elem_of_cons. case_decide; [|tauto].
    split; [done | intros [? _]; done].
Qed.

Lemma get_Some_elem d k v : PyDict.get k d = Some v → (k, v) ∈ d.
Proof.
  induction d as [|[k0 v0] d IH]; simpl; [done|].
  case_decide; intros; simplify_eq; [left | right; auto].
Qed.

Lemma elem_get_Some d k v :
  NoDup (PyDict.keys d) → (k, v) ∈ d → PyDict.get k d = Some v.
Proof.
  unfold PyDict.keys. induction d as [|[k0 v0] d IH]; simpl.
  - intros _ ?%elem_of_nil. done.
  - intros [Hk0 Hd]%NoDup_cons [?|Hin]%elem_of_cons; simplify_eq.
    + by case_decide.
    + case_decide; [|auto]. subst. destruct Hk0.
      apply list_elem_of_fmap. by exists (k0, v).
Qed.

Lemma keys_set d k v :
  PyDict.keys (PyDict.set k v d)
  = match PyDict.get k d with
    | Some _ => PyDict.keys d
    | None => PyDict.keys d ++ [k]
    end.
Proof.
  unfold PyDict.keys. induction d as [|[k0 v0] d IH]; [done|].
  cbn [PyDict.set PyDict.get]. case_decide; [by subst|].
  rewrite !fmap_cons, IH. by destruct (PyDict.get k d).
Qed.

Lemma NoDup_keys_set d k v :
  NoDup (PyDict.keys d) → NoDup (PyDict.keys (PyDict.set k v d)).
Proof.
  intros Hd. rewrite keys_set. destruct (PyDict.get k d) eqn:Hg; [done|].
  apply NoDup_app. split_and!; [done| |apply NoDup_singleton].
  intros x Hx ->%list_elem_of_singleton. by apply get_None in Hg.
Qed.

Lemma del_sublist d k : PyDict.del k d `sublist_of` d.
Proof.
  induction d as [|[k0 v0] d IH]; simpl; [done|].
  case_decide; [by apply sublist_cons | by apply sublist_skip].
Qed.

Lemma length_del d k :
  is_Some (PyDict.get k d) → S (length (PyDict.del k d)) = length d.
Proof.
  induction d as [|[k0 v0] d IH]; simpl; [by intros [? ?]|].
  case_decide; simpl; [done | intros; f_equal; auto].
Qed.

Lemma get_del d k k' :
  NoDup (PyDict.keys d) →
  PyDict.get k' (PyDict.del k d)
  = if decide (k' = k) then None else PyDict.get k' d.
Proof.
  unfold PyDict.keys. induction d as [|[k0 v0] d IH]; simpl.
  - by case_decide.
  - intros [Hk0 Hd]%NoDup_cons.
    destruct (decide (k = k0)) as [->|]; simpl.
    + destruct (decide (k' = k0)) as [->|]; [by apply get_None | done].
    + rewrite IH by done. destruct (decide (k' = k0)), (decide (k' = k));
        congruence.
Qed.

Lemma NoDup_keys_del d k :
  NoDup (PyDict.keys d) → NoDup (PyDict.keys (PyDict.del k d)).
Proof.
  intros Hd. apply (sublist_NoDup _ (PyDict.keys d)); [done|].
  unfold PyDict.keys. apply fmap_sublist, del_sublist.
Qed.
End dict_facts.

(** ** The metadata index *)

Lemma lookup_foldl_insert_None {A} (key : A → Z) (val : A → string)
    (l : list A) (m : gmap Z string) (i : Z) :
  foldl (λ m x, <[key x := val x]> m) m l !! i = None
  ↔ m !! i = None ∧ i ∉ key <$> l.
Proof.
  revert m. induction l as [|x l IH]; intros m; simpl.
  - split; [intros ?; split; [done | apply not_elem_of_nil] | by intros [? _]].
  - rewrite IH, not_elem_of_cons, lookup_insert_None. naive_solver.
Qed.

Lemma cat_id_to_name_None data i :
  cat_id_to_name data !! i = None ↔ i ∉ c_id <$> categories data.
Proof.
  unfold cat_id_to_name. rewrite lookup_foldl_insert_None, lookup_empty.
  naive_solver.
Qed.

Lemma img_id_to_file_None data i :
  img_id_to_file data !! i = None ↔ i ∉ i_id <$> images data.
Proof.
  unfold img_id_to_file. rewrite lookup_foldl_insert_None, lookup_empty.
  naive_solver.
Qed.

Lemma dangling_lookup data ann :
  dangling data ann
  ↔ img_id_to_file data !! a_image_id ann = None
    ∨ cat_id_to_name data !! a_category_id ann = None.
Proof.
  unfold dangling. by rewrite img_id_to_file_None, cat_id_to_name_None.
Qed.

Lemma fold_annotations_app cats imgs pre post acc :
  fold_annotations cats imgs (pre ++ post) acc
  = acc' ← fold_annotations cats imgs pre acc;
    fold_annotations cats imgs post acc'.
Proof.
  revert acc. induction pre as [|ann pre IH]; intros acc; simpl; [done|].
  destruct (imgs !! a_image_id ann); [|done].
  destruct (cats !! a_category_id ann); [|done]. apply IH.
Qed.

Lemma fold_annotations_raise data anns acc :
  Exists (dangling data) anns
  ↔ ∃ key, fold_annotations (cat_id_to_name data) (img_id_to_file data) anns acc
           = Raise (KeyError key).
Proof.
  revert acc. induction anns as [|ann anns IH]; intros acc; simpl.
  - split; [by intros ?%Exists_nil | by intros [? ?]].
  - rewrite Exists_cons, dangling_lookup.
    destruct (img_id_to_file data !! a_image_id ann) as [fname|] eqn:Hi.
    2:{ split; [eauto | by left; left]. }
    destruct (cat_id_to_name data !! a_category_id ann) as [cls|] eqn:Hc.
    2:{ split; [eauto | by left; right]. }
    rewrite IH. split; [intros [[?|?]|?]; done | by right].
Qed.

Lemma fold_annotations_ok data anns acc :
  Forall (λ ann, ¬ dangling data ann) anns
  ↔ ∃ ftc, fold_annotations (cat_id_to_name data) (img_id_to_file data) anns acc
           = Ok ftc.
Proof.
  revert acc. induction anns as [|ann anns IH]; intros acc; simpl.
  - split; [eauto | constructor].
  - rewrite Forall_cons, dangling_lookup.
    destruct (img_id_to_file data !! a_image_id ann) as [fname|] eqn:Hi.
    2:{ split; [intros [[] _]; by left | by intros [? ?]]. }
    destruct (cat_id_to_name data !! a_category_id ann) as [cls|] eqn:Hc.
    2:{ split; [intros [[] _]; by right | by intros [? ?]]. }
    rewrite IH. split; [by intros [_ ?] | intros ?; split; [|done]].
    intros [?|?]; done.
Qed.

Lemma fold_annotations_other cats imgs anns acc ftc fname :
  fold_annotations cats imgs anns acc = Ok ftc →
  Forall (λ ann, imgs !! a_image_id ann ≠ Some fname) anns →
  PyDict.get fname ftc = PyDict.get fname acc.
Proof.
  revert acc. induction anns as [|ann anns IH]; intros acc; simpl.
  - by intros [= ->].
  - intros Hf [Hne Hrest]%Forall_cons.
    destruct (imgs !! a_image_id ann) as [f|]; [|done].
    destruct (cats !! a_category_id ann) as [cls|]; [|done].
    rewrite (IH _ Hf Hrest). apply get_set_ne. congruence.
Qed.

Lemma fold_annotations_keys cats imgs anns acc ftc :
  fold_annotations cats imgs anns acc = Ok ftc →
  NoDup (PyDict.keys acc) → NoDup (PyDict.keys ftc).
Proof.
  revert acc. induction anns as [|ann anns IH]; intros acc; simpl.
  - by intros [= ->].
  - destruct (imgs !! a_image_id ann) as [f|]; [|done].
    destruct (cats !! a_category_id ann) as [cls|]; [|done].
    intros Hf Hacc. eapply IH; [done|]. by apply NoDup_keys_set.
Qed.

Lemma file_to_class_keys data ftc :
  file_to_class data = Ok ftc → NoDup (PyDict.keys ftc).
Proof. intros Hf. eapply fold_annotations_keys; [done | constructor]. Qed.

(** C5. Building the filename-to-class index raises (a [KeyError], the
    script's form of a metadata format error) exactly when some annotation
    refers to an image id or a category id that no record of the respective
    table carries, and returns an index exactly when no annotation does. *)
Theorem index_fails_iff_dangling (data : metadata) :
  (Exists (dangling data) (annotations data)
   ↔ ∃ key, file_to_class data = Raise (KeyError key))
  ∧ (Forall (λ ann, ¬ dangling data ann) (annotations data)
     ↔ ∃ ftc, file_to_class data = Ok ftc).
Proof.
  split; [apply fold_annotations_raise | apply fold_annotations_ok].
Qed.

(** C9. Annotations are folded in sequence order and a later annotation of
    a file name overwrites the earlier one: in the index, the class of a
    file name is the category name of the last annotation about that file. *)
Theorem index_last_write_wins (data : metadata) (ftc : list (string * string))
    (pre post : list annotation) (ann : annotation) (fname : string) :
  file_to_class data = Ok ftc →
  annotations data = pre ++ ann :: post →
  annotated_file data ann = Some fname →
  Forall (λ later, annotated_file data later ≠ Some fname) post →
  ∃ cls, cat_id_to_name data !! a_category_id ann = Some cls
         ∧ PyDict.get fname ftc = Some cls.
Proof.
  unfold file_to_class, annotated_file. intros Hf Hanns Hfile Hpost.
  rewrite Hanns, fold_annotations_app in Hf.
  destruct (fold_annotations _ _ pre []) as [acc|] eqn:Hpre; [|done].
  cbn in Hf. rewrite Hfile in Hf.
  destruct (cat_id_to_name data !! a_category_id ann) as [cls|]; [|done].
  exists cls. split; [done|].
  rewrite (fold_annotations_other _ _ _ _ _ _ Hf Hpost). apply get_set_eq.
Qed.

(** ** Grouping by class *)

Lemma candidates_cons cls fname c ftc :
  candidates cls ((fname, c) :: ftc)
  = if decide (c = cls) then fname :: candidates cls ftc else candidates cls ftc.
Proof.
  unfold candidates. rewrite filter_cons. simpl. by case_decide.
Qed.

Lemma candidates_elem cls ftc fname :
  fname ∈ candidates cls ftc ↔ (fname, cls) ∈ ftc.
Proof.
  unfold candidates. rewrite list_elem_of_fmap. split.
  - intros [[f c] [-> [Hc ?]%list_elem_of_filter]]. simpl in *. by subst.
  - intros ?. exists (fname, cls). split; [done|]. by apply list_elem_of_filter.
Qed.

Lemma candidates_NoDup cls ftc :
  NoDup (PyDict.keys ftc) → NoDup (candidates cls ftc).
Proof.
  intros Hk. apply (sublist_NoDup _ (PyDict.keys ftc)); [done|].
  unfold candidates, PyDict.keys. apply fmap_sublist, sublist_filter.
Qed.

Lemma class_to_files_fold ftc : class_to_files ftc = foldl class_step [] ftc.
Proof. done. Qed.

Lemma class_fold_get ftc acc cls :
  PyDict.get cls (foldl class_step acc ftc)
  = if decide (cls ∈ DESIRED_CLASSES) then
      match candidates cls ftc with
      | [] => PyDict.get cls acc
      | c => Some (default [] (PyDict.get cls acc) ++ c)
      end
    else PyDict.get cls acc.
Proof.
  revert acc. induction ftc as [|[fname c] ftc IH]; intros acc.
  - simpl. by case_decide.
  - cbn [foldl]. rewrite IH, candidates_cons. unfold class_step, append_file.
    destruct (decide (cls ∈ DESIRED_CLASSES)) as [Hcls|Hcls]; [|].
    + destruct (decide (c = cls)) as [->|Hne].
      * rewrite decide_True by done. rewrite get_set_eq. simpl.
        destruct (candidates cls ftc); [done|]. by rewrite <- app_assoc.
      * case_decide; [|done]. by rewrite get_set_ne by done.
    + case_decide; [|done]. rewrite get_set_ne; [done|]. congruence.
Qed.

Lemma class_fold_keys ftc acc :
  NoDup (PyDict.keys acc) → NoDup (PyDict.keys (foldl class_step acc ftc)).
Proof.
  revert acc. induction ftc as [|[fname c] ftc IH]; intros acc Hacc; [done|].
  cbn [foldl]. apply IH. unfold class_step, append_file.
  case_decide; [by apply NoDup_keys_set | done].
Qed.

Lemma class_to_files_get ftc cls files :
  PyDict.get cls (class_to_files ftc) = Some files
  ↔ cls ∈ DESIRED_CLASSES ∧ files = candidates cls ftc ∧ files ≠ [].
Proof.
  rewrite class_to_files_fold, class_fold_get. simpl.
  case_decide; [|naive_solver].
  destruct (candidates cls ftc) eqn:Hc; naive_solver.
Qed.

Lemma class_to_files_keys ftc : NoDup (PyDict.keys (class_to_files ftc)).
Proof. apply class_fold_keys. constructor. Qed.

(** ** Selection without replacement *)

Lemma sample_size_half (files : list string) :
  sample_size files = Nat.max 1 (length files `div` 2).
Proof. unfold sample_size. by rewrite int_times_fraction_half. Qed.

Lemma sample_size_le (files : list string) :
  files ≠ [] → sample_size files ≤ length files.
Proof.
  intros Hne. rewrite sample_size_half.
  destruct files as [|x files]; [done|]. simpl length.
  pose proof (Nat.Div0.div_le_upper_bound (S (length files)) 2 (S (length files))).
  apply Nat.max_lub; lia.
Qed.

Lemma take_pool_step {A} (pool : list A) (m j : nat) (x y : A) :
  j < m → m ≤ length pool →
  pool !! j = Some x → pool !! (m - 1) = Some y →
  take m pool ≡ₚ x :: take (m - 1) (<[j := y]> pool).
Proof.
  intros Hj Hm Hx Hy.
  replace m with (S (m - 1)) at 1 by lia.
  rewrite (take_S_r _ _ _ Hy).
  destruct (decide (j = m - 1)) as [->|Hne].
  - rewrite list_insert_id by done. simplify_eq.
    by rewrite Permutation_app_comm.
  - rewrite take_insert_lt by lia.
    assert (take (m - 1) pool !! j = Some x) as Hx'.
    { rewrite lookup_take_lt by lia. done. }
    apply list_elem_of_split_length in Hx' as (l1 & l2 & Heq & Hlen).
    rewrite Heq. subst j.
    rewrite insert_app_r_alt, Nat.sub_diag by lia. simpl.
    rewrite <- !Permutation_middle. simpl. rewrite app_nil_r. apply perm_swap.
Qed.

Lemma pick_submseteq {A} (js : list nat) (pool : list A) (m : nat) (l : list A) :
  pick pool m js = Some l → draws_in_range m js → m ≤ length pool →
  l ⊆+ take m pool ∧ length l = length js.
Proof.
  revert pool m l. induction js as [|j js IH]; intros pool m l; simpl.
  - intros [= <-] _ _. split; [apply submseteq_nil_l | done].
  - destruct (pool !! j) as [x|] eqn:Hx; [|done].
    destruct (pool !! (m - 1)) as [y|] eqn:Hy; [|done].
    destruct (pick _ _ js) as [rest|] eqn:Hrest; [|done].
    intros [= <-] [Hj Hjs] Hm.
    destruct (IH _ _ _ Hrest Hjs) as [Hsub Hlen].
    { rewrite length_insert. lia. }
    split; [|simpl; by f_equal].
    rewrite (take_pool_step pool m j x y) by done. by apply submseteq_skip.
Qed.

Lemma pick_inj {A} (js js' : list nat) (pool : list A) (m : nat) (l : list A) :
  NoDup (take m pool) → m ≤ length pool →
  draws_in_range m js → draws_in_range m js' →
  pick pool m js = Some l → pick pool m js' = Some l → js = js'.
Proof.
  revert js' pool m l. induction js as [|j js IH]; intros [|j' js'] pool m l;
    simpl; intros Hnd Hm Hjs Hjs'.
  - done.
  - intros [= <-]. destruct (pool !! j'), (pool !! (m - 1)); [|done..].
    by destruct (pick _ _ js').
  - destruct (pool !! j), (pool !! (m - 1)); [|done..].
    destruct (pick _ _ js); [|done]. by intros [= <-].
  - destruct Hjs as [Hj Hjs], Hjs' as [Hj' Hjs'].
    destruct (pool !! j) as [x|] eqn:Hx; [|done].
    destruct (pool !! j') as [x'|] eqn:Hx'; [|done].
    destruct (pool !! (m - 1)) as [y|] eqn:Hy; [|done].
    destruct (pick _ _ js) as [rest|] eqn:Hrest; [|done].
    destruct (pick _ _ js') as [rest'|] eqn:Hrest'; [|done].
    intros [= <-] [= Hxx Hrr]. subst x' rest'.
    assert (j = j') as <-.
    { eapply NoDup_lookup; [exact Hnd | |]; by rewrite lookup_take_lt. }
    f_equal. eapply (IH js' (<[j:=y]> pool) (m - 1) rest); try done.
    + rewrite (take_pool_step pool m j x y) in Hnd by done.
      by apply NoDup_cons in Hnd as [_ ?].
    + rewrite length_insert. lia.
Qed.

Lemma pick_surj {A} (l pool : list A) (m : nat) :
  m ≤ length pool → l ⊆+ take m pool →
  ∃ js, draws_in_range m js ∧ pick pool m js = Some l.
Proof.
  revert pool m. induction l as [|x l IH]; intros pool m Hm Hsub.
  - by exists [].
  - assert (x ∈ take m pool) as Hin.
    { eapply elem_of_submseteq; [|done]. by left. }
    apply list_elem_of_lookup in Hin as [j Hj].
    assert (j < m) as Hjm.
    { apply lookup_lt_Some in Hj. rewrite length_take in Hj. lia. }
    rewrite lookup_take_lt in Hj by done.
    destruct (lookup_lt_is_Some_2 pool (m - 1)) as [y Hy]; [lia|].
    rewrite (take_pool_step pool m j x y) in Hsub by done.
    apply submseteq_app_inv_l with (k := [x]) in Hsub.
    destruct (IH (<[j:=y]> pool) (m - 1)) as (js & Hjs & Hpick); [|done|].
    { rewrite length_insert. lia. }
    exists (j :: js). simpl. by rewrite Hj, Hy, Hpick.
Qed.

Section sampler_facts.
Context {G : Type} (seed : Z → G) (randbelow : G → nat → nat * G).
Hypothesis randbelow_lt : ∀ g n, 0 < n → (randbelow g n).1 < n.

Lemma sample_pool_pick {A} (k : nat) (pool : list A) (m : nat) (g : G) l g' :
  sample_pool randbelow pool m k g = Ok (l, g') → k ≤ m →
  ∃ js, length js = k ∧ draws_in_range m js ∧ pick pool m js = Some l.
Proof.
  revert pool m g l g'. induction k as [|k IH]; intros pool m g l g'; simpl.
  - intros [= <- <-] _. by exists [].
  - pose proof (randbelow_lt g m) as Hlt.
    destruct (randbelow g m) as [j g1].
    destruct (pool !! j) as [x|] eqn:Hx; [|done].
    destruct (pool !! (m - 1)) as [y|] eqn:Hy; [|done].
    destruct (sample_pool _ _ _ k g1) as [[rest g2]|] eqn:Hrest; [|done].
    intros [= <- <-] Hk.
    destruct (IH _ _ _ _ _ Hrest) as (js & Hlen & Hjs & Hpick); [lia|].
    exists (j :: js). simpl. rewrite Hx, Hy, Hpick.
    split_and!; [by f_equal | apply Hlt; lia | done | done].
Qed.

Lemma sample_pool_total {A} (k : nat) (pool : list A) (m : nat) (g : G) :
  k ≤ m → m ≤ length pool →
  ∃ l g', sample_pool randbelow pool m k g = Ok (l, g').
Proof.
  revert pool m g. induction k as [|k IH]; intros pool m g Hk Hm; simpl.
  - eauto.
  - pose proof (randbelow_lt g m) as Hlt.
    destruct (randbelow g m) as [j g1]. simpl in Hlt.
    destruct (lookup_lt_is_Some_2 pool j) as [x ->]; [lia|].
    destruct (lookup_lt_is_Some_2 pool (m - 1)) as [y ->]; [lia|].
    destruct (IH (<[j:=y]> pool) (m - 1) g1) as (rest & g2 & ->); [lia| |].
    { rewrite length_insert. lia. }
    simpl. eauto.
Qed.

Lemma sample_total {A} (population : list A) (k : nat) (g : G) :
  k ≤ length population →
  ∃ l g', sample randbelow population k g = Ok (l, g').
Proof.
  intros Hk. unfold sample. rewrite decide_True by done.
  by apply sample_pool_total.
Qed.

Lemma sample_spec {A} (population : list A) (k : nat) (g : G) l g' :
  sample randbelow population k g = Ok (l, g') →
  length l = k ∧ l ⊆+ population
  ∧ ∃ js, draws_in_range (length population) js
          ∧ pick population (length population) js = Some l.
Proof.
  unfold sample. case_decide as Hk; [|done]. intros Hs.
  apply sample_pool_pick in Hs as (js & Hlen & Hjs & Hpick); [|done].
  destruct (pick_submseteq _ _ _ _ Hpick Hjs) as [Hsub Hl]; [done|].
  rewrite firstn_all in Hsub. split_and!; [congruence | done | eauto].
Qed.

Lemma sample_classes_get items acc g m g' cls l :
  sample_classes randbelow items acc g = Ok (m, g') →
  NoDup (PyDict.keys items) →
  PyDict.get cls m = Some l →
  (PyDict.get cls acc = Some l ∧ cls ∉ PyDict.keys items)
  ∨ ∃ files g1 g2, (cls, files) ∈ items
      ∧ sample randbelow files (sample_size files) g1 = Ok (l, g2).
Proof.
  revert acc g. induction items as [|[c files] items IH]; intros acc g; simpl.
  - intros [= <- <-] _ ?. left. split; [done | apply not_elem_of_nil].
  - destruct (sample _ files _ g) as [[s g1]|] eqn:Hs; [|done]. simpl.
    intros Hrest [Hc Hnd]%NoDup_cons Hget.
    destruct (IH _ _ Hrest Hnd Hget) as [[Hacc Hnotin]|(fs & ga & gb & Hin & Hsam)].
    + rewrite get_set in Hacc. case_decide as Hcc.
      * subst c. simplify_eq. right. exists files, g, g1. split; [by left|done].
      * left. split; [done|]. rewrite not_elem_of_cons. done.
    + right. exists fs, ga, gb. split; [by right|done].
Qed.

Lemma sample_classes_total items acc g :
  Forall (λ p, p.2 ≠ []) items →
  ∃ m g', sample_classes randbelow items acc g = Ok (m, g').
Proof.
  revert acc g. induction items as [|[c files] items IH]; intros acc g; simpl.
  - eauto.
  - intros [Hne Hrest]%Forall_cons. simpl in Hne.
    destruct (sample_total files (sample_size files) g) as (s & g1 & ->).
    { by apply sample_size_le. }
    simpl. by apply IH.
Qed.
End sampler_facts.

(** ** The sampler *)

Lemma submseteq_NoDup {A} (l k : list A) : l ⊆+ k → NoDup k → NoDup l.
Proof.
  intros [k' Hk]%submseteq_Permutation Hnd. rewrite Hk in Hnd.
  by apply NoDup_app in Hnd as [? _].
Qed.

Lemma lcg_randbelow_lt (g : N) (n : nat) : 0 < n → (lcg_randbelow g n).1 < n.
Proof.
  intros Hn. unfold lcg_randbelow. simpl.
  assert (g `mod` N.of_nat n < N.of_nat n)%N by (apply N.mod_lt; lia). lia.
Qed.

Lemma sample_pool_draws {G A} (randbelow : G → nat → nat * G) (k : nat)
    (pool : list A) (m : nat) (g : G) l g' :
  sample_pool randbelow pool m k g = Ok (l, g') →
  pick pool m (draws randbelow g m k).1 = Some l
  ∧ g' = (draws randbelow g m k).2
  ∧ length l = k.
Proof.
  revert pool m g l g'. induction k as [|k IH]; intros pool m g l g'; simpl.
  - by intros [= <- <-].
  - destruct (randbelow g m) as [j g1].
    destruct (pool !! j) as [x|] eqn:Hx; [|done].
    destruct (pool !! (m - 1)) as [y|] eqn:Hy; [|done].
    destruct (sample_pool _ _ _ k g1) as [[rest g2]|] eqn:Hrest; [|done].
    intros [= <- <-].
    destruct (IH _ _ _ _ _ Hrest) as (Hpick & Hg & Hlen).
    destruct (draws randbelow g1 (m - 1) k) as [js g3]. simpl in *.
    rewrite Hx, Hy, Hpick. split_and!; [done | done | by f_equal].
Qed.

Lemma draws_range {G} (randbelow : G → nat → nat * G) (k m : nat) (g : G) :
  (∀ g n, 0 < n → (randbelow g n).1 < n) →
  k ≤ m → draws_in_range m (draws randbelow g m k).1.
Proof.
  intros Hlt. revert m g. induction k as [|k IH]; intros m g Hk; simpl; [done|].
  pose proof (Hlt g m) as Hj. destruct (randbelow g m) as [j g1].
  specialize (IH (m - 1) g1).
  destruct (draws randbelow g1 (m - 1) k) as [js g2]. simpl in *.
  split; [apply Hj; lia | apply IH; lia].
Qed.

Lemma sample_draws {G A} (randbelow : G → nat → nat * G)
    (population : list A) (k : nat) (g : G) l g' :
  sample randbelow population k g = Ok (l, g') →
  k ≤ length population
  ∧ pick population (length population)
      (draws randbelow g (length population) k).1 = Some l
  ∧ g' = (draws randbelow g (length population) k).2
  ∧ length l = k.
Proof.
  unfold sample. case_decide as Hk; [|done]. intros Hs.
  split; [done|]. by apply sample_pool_draws.
Qed.

Lemma sample_classes_state {G} (randbelow : G → nat → nat * G) items acc
    (g : G) m g' :
  sample_classes randbelow items acc g = Ok (m, g') →
  g' = draws_classes randbelow items g.
Proof.
  revert acc g. induction items as [|[c files] items IH]; intros acc g; simpl.
  - by intros [= _ <-].
  - destruct (sample _ files _ g) as [[s g1]|] eqn:Hs; [|done]. simpl.
    apply sample_draws in Hs as (_ & _ & -> & _). apply IH.
Qed.

Lemma sample_classes_other {G} (randbelow : G → nat → nat * G) items acc
    (g : G) m g' cls :
  sample_classes randbelow items acc g = Ok (m, g') →
  cls ∉ PyDict.keys items →
  PyDict.get cls m = PyDict.get cls acc.
Proof.
  revert acc g. induction items as [|[c files] items IH]; intros acc g; simpl.
  - by intros [= <- _].
  - destruct (sample _ files _ g) as [[s g1]|] eqn:Hs; [|done]. simpl.
    intros Hrest [Hc Hnotin]%not_elem_of_cons.
    rewrite (IH _ _ Hrest Hnotin), get_set. by rewrite decide_False.
Qed.

Lemma sample_classes_at {G} (randbelow : G → nat → nat * G) pre cls files
    post acc (g : G) m g' :
  sample_classes randbelow (pre ++ (cls, files) :: post) acc g = Ok (m, g') →
  cls ∉ PyDict.keys post →
  ∃ l g1,
    sample randbelow files (sample_size files) (draws_classes randbelow pre g)
    = Ok (l, g1)
    ∧ PyDict.get cls m = Some l.
Proof.
  revert acc g. induction pre as [|[c fs] pre IH]; intros acc g; simpl.
  - destruct (sample _ files _ g) as [[s g1]|] eqn:Hs; [|done]. simpl.
    intros Hrest Hnotin. exists s, g1. split; [done|].
    rewrite (sample_classes_other _ _ _ _ _ _ _ Hrest Hnotin), get_set.
    by rewrite decide_True.
  - destruct (sample _ fs _ g) as [[s g1]|] eqn:Hs; [|done]. simpl.
    apply sample_draws in Hs as (_ & _ & -> & _). apply IH.
Qed.

(** C2. When the sampler computes its manifest, the list of every class in
    it has max(1, floor(n * fraction)) file names, n being the number of
    candidates of that class in the index. The list is drawn from those
    candidates without replacement by the generator: it is the selection
    along the numbers that [randbelow] returns, one after the other, from
    the state in which the seeded generator is after the classes before
    this one, each number below the count of candidates that remain; the
    generator is left in the state after the draws of all classes. Every
    ordered selection of candidates is the outcome of exactly one sequence
    of such numbers, so that the selections of a size are equally likely
    when the numbers of the generator are uniform. *)
Theorem sampler_fraction {G : Type} (seed : Z → G)
    (randbelow : G → nat → nat * G) (data : metadata) (w w' : world G)
    (m : manifest) (cls : string) (l : list string) :
  (∀ g n, 0 < n → (randbelow g n).1 < n) →
  sample_file w = None →
  get_sampled_files seed randbelow data w = Ok (m, w') →
  PyDict.get cls m = Some l →
  ∃ ftc pre post,
    file_to_class data = Ok ftc
    ∧ class_to_files ftc = pre ++ (cls, candidates cls ftc) :: post
    ∧ rng w' = draws_classes randbelow (class_to_files ftc) (seed RANDOM_SEED)
    ∧ length l
      = Nat.max 1 (Z.to_nat (Qfloor (inject_Z (Z.of_nat
                     (length (candidates cls ftc))) * SAMPLE_FRACTION)))
    ∧ l ⊆+ candidates cls ftc
    ∧ NoDup l
    ∧ draws_in_range (length (candidates cls ftc))
        (draws randbelow (draws_classes randbelow pre (seed RANDOM_SEED))
           (length (candidates cls ftc)) (length l)).1
    ∧ pick (candidates cls ftc) (length (candidates cls ftc))
        (draws randbelow (draws_classes randbelow pre (seed RANDOM_SEED))
           (length (candidates cls ftc)) (length l)).1
      = Some l
    ∧ ∀ l', l' ⊆+ candidates cls ftc →
        ∃ js', (draws_in_range (length (candidates cls ftc)) js'
                ∧ pick (candidates cls ftc) (length (candidates cls ftc)) js'
                  = Some l')
               ∧ ∀ js'', draws_in_range (length (candidates cls ftc)) js'' →
                   pick (candidates cls ftc) (length (candidates cls ftc)) js''
                   = Some l' →
                   js'' = js'.
Proof.
  intros Hlt Hw. unfold get_sampled_files. rewrite Hw.
  destruct (file_to_class data) as [ftc|] eqn:Hftc; [|done]. simpl.
  destruct (sample_classes _ _ _ _) as [[sampled g']|] eqn:Hs; [|done]. simpl.
  intros [= <- <-] Hget.
  pose proof (class_to_files_keys ftc) as Hkeys.
  pose proof Hget as Hget'.
  apply (sample_classes_get _ _ _ _ _ _ _ _ Hs) in Hget'
    as [[? _]|(files & g1 & g2 & Hin & _)]; [done | | done].
  pose proof Hin as Hin'.
  apply elem_get_Some in Hin'; [|done].
  apply class_to_files_get in Hin' as (_ & -> & _).
  apply list_elem_of_split in Hin as (pre & post & Hsplit).
  assert (cls ∉ PyDict.keys post) as Hpost.
  { rewrite Hsplit in Hkeys. unfold PyDict.keys in *.
    rewrite fmap_app, fmap_cons in Hkeys.
    apply NoDup_app in Hkeys as (_ & _ & Hk). by apply NoDup_cons in Hk as [? _]. }
  pose proof Hs as Hs'. rewrite Hsplit in Hs'.
  destruct (sample_classes_at _ _ _ _ _ _ _ _ _ Hs' Hpost)
    as (l0 & g3 & Hsam & Hget0).
  assert (l0 = l) as -> by congruence.
  pose proof Hsam as Hsam'.
  apply sample_draws in Hsam' as (Hk & Hpick & _ & Hlen).
  apply (sample_spec _ Hlt) in Hsam as (_ & Hsub & _).
  assert (NoDup (candidates cls ftc)) as Hnd.
  { apply candidates_NoDup. by eapply file_to_class_keys. }
  exists ftc, pre, post. rewrite Hlen.
  split_and!; [done | done | | done | done | by eapply submseteq_NoDup
              | by apply draws_range | done |].
  { simpl. by eapply sample_classes_state. }
  intros l' Hl'.
  destruct (pick_surj l' (candidates cls ftc) (length (candidates cls ftc)))
    as (js' & Hr & Hp); [done | by rewrite firstn_all |].
  exists js'. split; [done|]. intros js'' Hr' Hp'.
  eapply (pick_inj js'' js'); [by rewrite firstn_all | done..].
Qed.

Lemma sampler_fraction_witness :
  ∃ ftc pre post,
    file_to_class example_metadata = Ok ftc
    ∧ class_to_files ftc = pre ++ ("fox", candidates "fox" ftc) :: post
    ∧ rng {| sample_file := Some [("dingo", ["x/a.jpg"]);
                                  ("fox", ["f.jpg"; "e.jpg"])];
             rng := 1000676753%N |}
      = draws_classes lcg_randbelow (class_to_files ftc) (lcg_seed RANDOM_SEED)
    ∧ length ["f.jpg"; "e.jpg"]
      = Nat.max 1 (Z.to_nat (Qfloor (inject_Z (Z.of_nat
                     (length (candidates "fox" ftc))) * SAMPLE_FRACTION)))
    ∧ ["f.jpg"; "e.jpg"] ⊆+ candidates "fox" ftc
    ∧ NoDup ["f.jpg"; "e.jpg"]
    ∧ draws_in_range (length (candidates "fox" ftc))
        (draws lcg_randbelow
           (draws_classes lcg_randbelow pre (lcg_seed RANDOM_SEED))
           (length (candidates "fox" ftc)) (length ["f.jpg"; "e.jpg"])).1
    ∧ pick (candidates "fox" ftc) (length (candidates "fox" ftc))
        (draws lcg_randbelow
           (draws_classes lcg_randbelow pre (lcg_seed RANDOM_SEED))
           (length (candidates "fox" ftc)) (length ["f.jpg"; "e.jpg"])).1
      = Some ["f.jpg"; "e.jpg"]
    ∧ ∀ l', l' ⊆+ candidates "fox" ftc →
        ∃ js', (draws_in_range (length (candidates "fox" ftc)) js'
                ∧ pick (candidates "fox" ftc) (length (candidates "fox" ftc)) js'
                  = Some l')
               ∧ ∀ js'', draws_in_range (length (candidates "fox" ftc)) js'' →
                   pick (candidates "fox" ftc) (length (candidates "fox" ftc)) js''
                   = Some l' →
                   js'' = js'.
Proof.
  apply (sampler_fraction lcg_seed lcg_randbelow example_metadata
           (fresh_world 7)
           {| sample_file := Some [("dingo", ["x/a.jpg"]); ("fox", ["f.jpg"; "e.jpg"])];
              rng := 1000676753%N |}
           [("dingo", ["x/a.jpg"]); ("fox", ["f.jpg"; "e.jpg"])] "fox").
  - exact lcg_randbelow_lt.
  - reflexivity.
  - vm_compute. reflexivity.
  - vm_compute. reflexivity.
Defined.
Lemma class_to_files_nonempty ftc :
  Forall (λ p, p.2 ≠ []) (class_to_files ftc).
Proof.
  apply Forall_forall. intros [cls files] Hin.
  apply elem_get_Some in Hin; [|apply class_to_files_keys].
  by apply class_to_files_get in Hin as (_ & _ & ?).
Qed.

(** C3. When [sampled_files.json] exists, the sampler returns the stored
    manifest and leaves everything as it is, whatever the metadata, the
    generator and its seeding are. *)
Theorem sampler_short_circuit {G : Type} (seed seed' : Z → G)
    (randbelow randbelow' : G → nat → nat * G) (data data' : metadata)
    (w : world G) (persisted : manifest) :
  sample_file w = Some persisted →
  get_sampled_files seed randbelow data w = Ok (persisted, w)
  ∧ get_sampled_files seed' randbelow' data' w = Ok (persisted, w).
Proof. intros Hw. unfold get_sampled_files. by rewrite Hw. Qed.

Lemma sampler_short_circuit_witness :
  get_sampled_files lcg_seed lcg_randbelow example_metadata
    {| sample_file := Some [("quoll", ["q.jpg"])]; rng := 5%N |}
  = Ok ([("quoll", ["q.jpg"])],
        {| sample_file := Some [("quoll", ["q.jpg"])]; rng := 5%N |})
  ∧ get_sampled_files (λ _, 0%N) (λ g _, (0, g))
      {| categories := []; images := []; annotations := [] |}
      {| sample_file := Some [("quoll", ["q.jpg"])]; rng := 5%N |}
    = Ok ([("quoll", ["q.jpg"])],
          {| sample_file := Some [("quoll", ["q.jpg"])]; rng := 5%N |}).
Proof. apply sampler_short_circuit. reflexivity. Defined.

(** C8. With no stored manifest, two runs of the sampler on metadata with
    the same filename-to-class index return the same manifest, class by class
    and name by name in the same order, whatever state the generator was in
    before each run (it is reseeded); both runs do return. *)
Theorem sampler_deterministic {G : Type} (seed : Z → G)
    (randbelow : G → nat → nat * G) (data1 data2 : metadata)
    (ftc : list (string * string)) (w1 w2 : world G) :
  (∀ g n, 0 < n → (randbelow g n).1 < n) →
  file_to_class data1 = Ok ftc →
  file_to_class data2 = Ok ftc →
  sample_file w1 = None →
  sample_file w2 = None →
  ∃ m g',
    get_sampled_files seed randbelow data1 w1
    = Ok (m, {| sample_file := Some m; rng := g' |})
    ∧ get_sampled_files seed randbelow data2 w2
      = Ok (m, {| sample_file := Some m; rng := g' |}).
Proof.
  intros Hlt Hf1 Hf2 Hw1 Hw2. unfold get_sampled_files.
  rewrite Hw1, Hw2, Hf1, Hf2. simpl.
  destruct (sample_classes_total randbelow Hlt (class_to_files ftc) []
              (seed RANDOM_SEED)) as (m & g' & ->);
    [apply class_to_files_nonempty|].
  simpl. eauto.
Qed.

Lemma sampler_deterministic_witness :
  ∃ m g',
    get_sampled_files lcg_seed lcg_randbelow example_metadata (fresh_world 7)
    = Ok (m, {| sample_file := Some m; rng := g' |})
    ∧ get_sampled_files lcg_seed lcg_randbelow example_metadata' (fresh_world 9)
      = Ok (m, {| sample_file := Some m; rng := g' |}).
Proof.
  apply (sampler_deterministic lcg_seed lcg_randbelow example_metadata
           example_metadata' example_index).
  - exact lcg_randbelow_lt.
  - vm_compute. reflexivity.
  - vm_compute. reflexivity.
  - reflexivity.
  - reflexivity.
Defined.

(** ** The match-and-move loop *)

Lemma tree_get_move base cls0 name0 nd0 d cls name :
  base !! cls0 = Some d →
  tree_get (<[cls0 := <[name0 := nd0]> d]> base) cls name
  = if decide (cls = cls0 ∧ name = name0) then Some nd0
    else tree_get base cls name.
Proof.
  intros Hd. unfold tree_get.
  destruct (decide (cls = cls0)) as [->|Hc].
  - rewrite lookup_insert_eq, Hd. simpl.
    destruct (decide (name = name0)) as [->|Hn].
    + rewrite lookup_insert_eq. by rewrite decide_True.
    + rewrite lookup_insert_ne by done. rewrite decide_False; [done|].
      by intros [_ ?].
  - rewrite lookup_insert_ne by done. rewrite decide_False; [done|].
    by intros [? _].
Qed.

Lemma moved_by_skip exp lo0 name0 rest raw name cls nd :
  (∀ p c nd0, exp !! lo0 = Some (p, c) → PyDict.get name0 raw = Some nd0 →
              ¬ (0 < st_size nd0)%N) →
  moved_by exp ((lo0, name0) :: rest) raw name cls nd
  ↔ moved_by exp rest raw name cls nd.
Proof.
  intros Hskip. unfold moved_by. split.
  - intros (lo & p & [?|?]%elem_of_cons & He & Hg & Hs); simplify_eq.
    + by destruct (Hskip _ _ _ He Hg).
    + eauto 10.
  - intros (lo & p & ? & ?). exists lo, p. split; [by right | done].
Qed.

Lemma moved_by_head exp lo0 name0 rest raw name cls nd p0 cls0 nd0 :
  NoDup (((lo0, name0) :: rest).*2) →
  NoDup (PyDict.keys raw) →
  exp !! lo0 = Some (p0, cls0) →
  PyDict.get name0 raw = Some nd0 →
  (0 < st_size nd0)%N →
  moved_by exp ((lo0, name0) :: rest) raw name cls nd
  ↔ (name = name0 ∧ cls = cls0 ∧ nd = nd0)
    ∨ (name ≠ name0 ∧ moved_by exp rest (PyDict.del name0 raw) name cls nd).
Proof.
  intros [Hhd _]%NoDup_cons Hraw He0 Hg0 Hs0. unfold moved_by. split.
  - intros (lo & p & [?|Hin]%elem_of_cons & He & Hg & Hs); simplify_eq.
    + by left.
    + right. assert (name ≠ name0) as Hne.
      { intros ->. apply Hhd. apply list_elem_of_fmap. by exists (lo, name0). }
      split; [done|]. exists lo, p. rewrite get_del by done.
      by rewrite decide_False.
  - intros [(-> & -> & ->)|(Hne & lo & p & Hin & He & Hg & Hs)].
    + exists lo0, p0. split; [by left | done].
    + exists lo, p. rewrite get_del, decide_False in Hg by done.
      split; [by right | done].
Qed.

Lemma loop_outcome_skip exp lo0 name0 rest f f' n :
  (∀ p c nd0, exp !! lo0 = Some (p, c) →
     PyDict.get name0 (raw_dir f) = Some nd0 → ¬ (0 < st_size nd0)%N) →
  loop_outcome exp rest f f' n →
  loop_outcome exp ((lo0, name0) :: rest) f f' n.
Proof.
  intros Hno (Hlen & Hsub & Hn & Hdom & Hkeep & Hgone).
  unfold loop_outcome. split_and!; try done.
  - rewrite filter_cons. case_decide; simpl; lia.
  - intros name Hname. apply Hkeep. intros cls nd Hm.
    apply (Hname cls nd). by apply moved_by_skip.
  - intros name cls nd Hm. apply Hgone. by eapply moved_by_skip.
Qed.

Lemma move_loop_spec exp items f moved :
  NoDup (PyDict.keys (raw_dir f)) →
  NoDup (items.*2) →
  dirs_ready exp (base_dir f) →
  ∃ f' n,
    move_loop exp items f moved = (f', Ok (moved + n))
    ∧ loop_outcome exp items f f' n.
Proof.
  revert f moved. induction items as [|[lo0 name0] rest IH];
    intros f moved Hraw Hitems Hdirs.
  { exists f, 0. simpl. rewrite Nat.add_0_r. split; [done|].
    unfold loop_outcome. split_and!; try done.
    intros name cls nd (? & ? & ?%elem_of_nil & _). done. }
  assert (NoDup (rest.*2)) as Hrest by (by apply NoDup_cons in Hitems as [_ ?]).
  assert ((∀ p c nd0, exp !! lo0 = Some (p, c) →
             PyDict.get name0 (raw_dir f) = Some nd0 → ¬ (0 < st_size nd0)%N) →
          move_loop exp ((lo0, name0) :: rest) f moved
          = move_loop exp rest f moved →
          ∃ f' n,
            move_loop exp ((lo0, name0) :: rest) f moved = (f', Ok (moved + n))
            ∧ loop_outcome exp ((lo0, name0) :: rest) f f' n) as Hskip.
  { intros Hno ->.
    destruct (IH f moved Hraw Hrest Hdirs) as (f' & n & Hrun & Hout).
    exists f', n. split; [done|]. by apply loop_outcome_skip. }
  cbn [move_loop] in *.
  destruct (exp !! lo0) as [[p0 cls0]|] eqn:He0; [|by apply Hskip].
  destruct (PyDict.get name0 (raw_dir f)) as [nd0|] eqn:Hg0; [|by apply Hskip].
  destruct (0 <? st_size nd0)%N eqn:Hs0.
  2:{ apply Hskip; [|done]. intros p c nd [= <- <-] [= <-].
      apply N.ltb_ge in Hs0. lia. }
  clear Hskip. apply N.ltb_lt in Hs0.
  destruct (Hdirs _ _ _ He0) as [d Hd].
  unfold shutil_move. rewrite Hg0, Hd.
  set (f1 := {| raw_dir := PyDict.del name0 (raw_dir f);
                base_dir := <[cls0 := <[name0 := nd0]> d]> (base_dir f) |}).
  destruct (IH f1 (S moved))
    as (f' & n & Hrun & Hlen & Hsub & Hn & Hdom & Hkeep & Hgone).
  { by apply NoDup_keys_del. }
  { done. }
  { intros key p c Hk. destruct (Hdirs _ _ _ Hk) as [d' Hd']. simpl.
    destruct (decide (c = cls0)) as [->|]; [rewrite lookup_insert_eq; eauto|].
    rewrite lookup_insert_ne by done. eauto. }
  simpl in Hlen, Hsub, Hdom, Hkeep, Hgone.
  exists f', (S n). split; [rewrite Hrun; do 2 f_equal; lia|].
  unfold loop_outcome. split_and!.
  - rewrite <- (length_del (raw_dir f) name0) by eauto. lia.
  - etrans; [done | apply del_sublist].
  - rewrite filter_cons. simpl. rewrite He0.
    rewrite decide_True by eauto. simpl. lia.
  - rewrite Hdom, dom_insert_L. apply elem_of_dom_2 in Hd. set_solver.
  - intros name Hname.
    assert (name ≠ name0) as Hne.
    { intros ->. apply (Hname cls0 nd0).
      eapply moved_by_head; [done..|]. by left. }
    destruct (Hkeep name) as [Hk1 Hk2].
    { intros cls nd Hm. apply (Hname cls nd).
      eapply moved_by_head; [done..|]. by right. }
    split.
    + rewrite Hk1, get_del by done. by rewrite decide_False.
    + intros cls. rewrite Hk2, tree_get_move by done.
      rewrite decide_False; [done|]. by intros [_ ?].
  - intros name cls nd Hm.
    eapply moved_by_head in Hm as [(-> & -> & ->)|[Hne Hm]]; [| |done..].
    + destruct (Hkeep name0) as [Hk1 Hk2].
      { intros c' n' (lo & p & _ & _ & Hg & _).
        rewrite get_del, decide_True in Hg by done. done. }
      split.
      * rewrite Hk1, get_del by done. by rewrite decide_True.
      * rewrite Hk2, tree_get_move by done. by rewrite decide_True.
    + by apply Hgone.
Qed.

(** ** The scan of the staging directory *)

Lemma actual_files_fold raw : actual_files raw = foldl scan_step [] raw.
Proof. done. Qed.

Lemma elem_of_dict_set {K V} `{EqDecision K} (d : list (K * V)) k v k' v' :
  (k', v') ∈ PyDict.set k v d → (k' = k ∧ v' = v) ∨ (k', v') ∈ d.
Proof.
  induction d as [|[k0 v0] d IH]; simpl.
  - intros ?%list_elem_of_singleton. simplify_eq. by left.
  - case_decide; subst.
    + intros [?|?]%elem_of_cons; simplify_eq; [by left | right; by right].
    + intros [?|?]%elem_of_cons; simplify_eq; [right; by left|].
      destruct IH as [?|?]; [done | by left | right; by right].
Qed.

Lemma scan_keys raw acc :
  NoDup (PyDict.keys acc) → NoDup (PyDict.keys (foldl scan_step acc raw)).
Proof.
  revert acc. induction raw as [|[name nd] raw IH]; intros acc Hacc; [done|].
  cbn [foldl]. apply IH. unfold scan_step.
  destruct (is_file nd); [by apply NoDup_keys_set | done].
Qed.

Lemma scan_elem raw acc lo real :
  (lo, real) ∈ foldl scan_step acc raw →
  (lo, real) ∈ acc
  ∨ (lo = lower real ∧ ∃ nd, (real, nd) ∈ raw ∧ is_file nd = true).
Proof.
  revert acc. induction raw as [|[name nd] raw IH]; intros acc; [by left|].
  cbn [foldl]. intros [Hin|(-> & nd' & Hin & Hf)]%IH.
  - unfold scan_step in Hin. destruct (is_file nd) eqn:Hf; [|by left].
    apply elem_of_dict_set in Hin as [[-> ->]|?]; [|by left].
    right. split; [done|]. exists nd. split; [by left | done].
  - right. split; [done|]. exists nd'. split; [by right | done].
Qed.

Lemma scan_get_mono raw acc lo :
  is_Some (PyDict.get lo acc) →
  is_Some (PyDict.get lo (foldl scan_step acc raw)).
Proof.
  revert acc. induction raw as [|[name nd] raw IH]; intros acc Hacc; [done|].
  cbn [foldl]. apply IH. unfold scan_step. destruct (is_file nd); [|done].
  rewrite get_set. case_decide; eauto.
Qed.

Lemma scan_get_covers raw acc name nd :
  (name, nd) ∈ raw → is_file nd = true →
  is_Some (PyDict.get (lower name) (foldl scan_step acc raw)).
Proof.
  revert acc. induction raw as [|[name0 nd0] raw IH]; intros acc.
  - by intros ?%elem_of_nil.
  - intros [?|Hin]%elem_of_cons Hf; simplify_eq; cbn [foldl].
    + apply scan_get_mono. unfold scan_step. rewrite Hf, get_set_eq. eauto.
    + by apply IH.
Qed.

Lemma actual_files_keys raw : NoDup (PyDict.keys (actual_files raw)).
Proof. rewrite actual_files_fold. apply scan_keys. constructor. Qed.

Lemma actual_files_elem raw lo real :
  (lo, real) ∈ actual_files raw →
  lo = lower real ∧ ∃ nd, (real, nd) ∈ raw ∧ is_file nd = true.
Proof.
  rewrite actual_files_fold. intros [?%elem_of_nil|?]%scan_elem; done.
Qed.

Lemma actual_files_names raw : NoDup ((actual_files raw).*2).
Proof.
  apply (NoDup_fmap_1 lower).
  replace (lower <$> (actual_files raw).*2) with (PyDict.keys (actual_files raw)).
  { apply actual_files_keys. }
  unfold PyDict.keys. rewrite <- list_fmap_compose.
  apply list_fmap_ext. intros i [lo real] Hi. simpl.
  apply list_elem_of_lookup_2 in Hi. by apply actual_files_elem in Hi as [-> _].
Qed.

Lemma actual_files_claims raw name nd :
  case_distinct raw → (name, nd) ∈ raw → is_file nd = true →
  (lower name, name) ∈ actual_files raw.
Proof.
  intros Hcase Hin Hf.
  destruct (scan_get_covers raw [] name nd Hin Hf) as [real Hget].
  apply get_Some_elem in Hget. rewrite <- actual_files_fold in Hget.
  destruct (actual_files_elem _ _ _ Hget) as (Hlo & nd' & Hin' & Hf').
  by rewrite <- (Hcase name nd real nd') in Hget.
Qed.

(** ** The expected index *)

Lemma expected_files_fold m : expected_files m = foldl expect_class ∅ m.
Proof. done. Qed.

Lemma expect_paths_lookup cls paths exp key p c :
  foldl (expect_step cls) exp paths !! key = Some (p, c) →
  exp !! key = Some (p, c)
  ∨ (c = cls ∧ p ∈ paths ∧ key = lower (basename p)).
Proof.
  revert exp. induction paths as [|p0 paths IH]; intros exp; [by left|].
  cbn [foldl]. intros [Hexp|(-> & Hin & ->)]%IH.
  - unfold expect_step in Hexp.
    apply lookup_insert_Some in Hexp as [[<- [= <- <-]]|[_ ?]]; [|by left].
    right. split_and!; [done | by left | done].
  - right. split_and!; [done | by right | done].
Qed.

Lemma expect_class_lookup m exp key p c :
  foldl expect_class exp m !! key = Some (p, c) →
  exp !! key = Some (p, c)
  ∨ (key = lower (basename p) ∧ ∃ paths, (c, paths) ∈ m ∧ p ∈ paths).
Proof.
  revert exp. induction m as [|[cls paths] m IH]; intros exp; [by left|].
  cbn [foldl]. intros [Hexp|(-> & ps & Hin & Hp)]%IH.
  - apply expect_paths_lookup in Hexp as [?|(-> & Hin & ->)]; [by left|].
    right. split; [done|]. exists paths. split; [by left | done].
  - right. split; [done|]. exists ps. split; [by right | done].
Qed.

Lemma expect_paths_mono cls paths exp key :
  is_Some (exp !! key) → is_Some (foldl (expect_step cls) exp paths !! key).
Proof.
  revert exp. induction paths as [|p0 paths IH]; intros exp Hexp; [done|].
  cbn [foldl]. apply IH. unfold expect_step.
  rewrite lookup_insert. case_decide; eauto.
Qed.

Lemma expect_class_mono m exp key :
  is_Some (exp !! key) → is_Some (foldl expect_class exp m !! key).
Proof.
  revert exp. induction m as [|[cls paths] m IH]; intros exp Hexp; [done|].
  cbn [foldl]. apply IH. by apply expect_paths_mono.
Qed.

Lemma expect_paths_covers cls paths exp p :
  p ∈ paths →
  is_Some (foldl (expect_step cls) exp paths !! lower (basename p)).
Proof.
  revert exp. induction paths as [|p0 paths IH]; intros exp.
  - by intros ?%elem_of_nil.
  - intros [->|Hin]%elem_of_cons; cbn [foldl]; [|by apply IH].
    apply expect_paths_mono. unfold expect_step. rewrite lookup_insert_eq. eauto.
Qed.

Lemma expected_files_elem m key p c :
  expected_files m !! key = Some (p, c) →
  key = lower (basename p) ∧ ∃ paths, (c, paths) ∈ m ∧ p ∈ paths.
Proof.
  rewrite expected_files_fold. intros [Hemp|?]%expect_class_lookup; [|done].
  by rewrite lookup_empty in Hemp.
Qed.

Lemma expected_files_covers m cls paths p :
  (cls, paths) ∈ m → p ∈ paths →
  is_Some (expected_files m !! lower (basename p)).
Proof.
  rewrite expected_files_fold. generalize (∅ : gmap string (string * string)).
  induction m as [|[c ps] m IH]; intros exp.
  - by intros ?%elem_of_nil.
  - intros [?|Hin]%elem_of_cons Hp; simplify_eq; cbn [foldl].
    + apply expect_class_mono. by apply expect_paths_covers.
    + by apply IH.
Qed.

(** ** The output directories *)

Lemma makedirs_lookup cls base c :
  is_Some (makedirs cls base !! c) ↔ c = cls ∨ is_Some (base !! c).
Proof.
  unfold makedirs. destruct (base !! cls) eqn:Hb.
  - split; [by right | intros [->|?]; [eauto | done]].
  - rewrite lookup_insert. case_decide; subst; split; eauto.
    intros [?|?]; [congruence | done].
Qed.

Lemma makedirs_tree_get cls base c name :
  tree_get (makedirs cls base) c name = tree_get base c name.
Proof.
  unfold makedirs, tree_get. destruct (base !! cls) eqn:Hb; [done|].
  destruct (decide (c = cls)) as [->|].
  - by rewrite lookup_insert_eq, Hb.
  - by rewrite lookup_insert_ne.
Qed.

Lemma makedirs_id cls base : is_Some (base !! cls) → makedirs cls base = base.
Proof. intros [d Hd]. unfold makedirs. by rewrite Hd. Qed.

Lemma makedirs_all_lookup keys base c :
  is_Some (foldl (λ b cls, makedirs cls b) base keys !! c)
  ↔ c ∈ keys ∨ is_Some (base !! c).
Proof.
  revert base. induction keys as [|k keys IH]; intros base; cbn [foldl].
  - split; [by right | by intros [?%elem_of_nil|?]].
  - rewrite IH, makedirs_lookup, elem_of_cons. tauto.
Qed.

Lemma makedirs_all_tree_get keys base c name :
  tree_get (foldl (λ b cls, makedirs cls b) base keys) c name
  = tree_get base c name.
Proof.
  revert base. induction keys as [|k keys IH]; intros base; cbn [foldl]; [done|].
  by rewrite IH, makedirs_tree_get.
Qed.

Lemma makedirs_all_id keys base :
  (∀ c, c ∈ keys → is_Some (base !! c)) →
  foldl (λ b cls, makedirs cls b) base keys = base.
Proof.
  induction keys as [|k keys IH]; intros Hall; cbn [foldl]; [done|].
  rewrite makedirs_id by (apply Hall; by left).
  apply IH. intros c Hc. apply Hall. by right.
Qed.

Lemma dirs_ready_makedirs m base :
  dirs_ready (expected_files m)
    (foldl (λ b cls, makedirs cls b) base (PyDict.keys m)).
Proof.
  intros key p cls (_ & paths & Hin & _)%expected_files_elem.
  apply makedirs_all_lookup. left. unfold PyDict.keys.
  apply list_elem_of_fmap. by exists (cls, paths).
Qed.

(** ** The reconciler *)

Lemma expected_items_bound (exp : gmap string (string * string))
    (items : list (string * string)) :
  NoDup (items.*1) →
  length (filter (λ it, is_Some (exp !! it.1)) items) ≤ size exp.
Proof.
  intros Hnd. rewrite <- size_dom, <- (length_fmap fst).
  apply submseteq_length, NoDup_submseteq.
  - apply (sublist_NoDup _ (items.*1)); [done|].
    apply fmap_sublist, sublist_filter.
  - intros lo [[lo' real] [-> [Hin _]%list_elem_of_filter]]%list_elem_of_fmap.
    simpl in *. apply elem_of_elements. by apply elem_of_dom.
Qed.

Lemma organize_files_spec m f :
  NoDup (PyDict.keys (raw_dir f)) →
  ∃ f' n,
    organize_files m f = (f', Ok n)
    ∧ loop_outcome (expected_files m) (actual_files (raw_dir f))
        {| raw_dir := raw_dir f;
           base_dir := foldl (λ b cls, makedirs cls b) (base_dir f)
                             (PyDict.keys m) |}
        f' n.
Proof.
  intros Hraw. unfold organize_files.
  destruct (move_loop_spec (expected_files m) (actual_files (raw_dir f))
              {| raw_dir := raw_dir f;
                 base_dir := foldl (λ b cls, makedirs cls b) (base_dir f)
                                   (PyDict.keys m) |} 0)
    as (f' & n & Hrun & Hout);
    [done | apply actual_files_names | apply dirs_ready_makedirs |].
  exists f', n. by rewrite Hrun.
Qed.

Lemma final_stats_nonempty exp n :
  size exp ≠ 0 →
  final_stats exp n
  = Ok {| moved := Z.of_nat n;
          missing := Z.of_nat (size exp) - Z.of_nat n;
          coveragePct := inject_Z (100 * Z.of_nat n)
                         / inject_Z (Z.of_nat (size exp)) |}.
Proof.
  intros Hne. unfold final_stats, truediv.
  rewrite decide_False by lia. done.
Qed.

Lemma move_loop_nothing exp items f moved :
  (∀ lo real p c nd, (lo, real) ∈ items → exp !! lo = Some (p, c) →
     PyDict.get real (raw_dir f) = Some nd → st_size nd = 0%N) →
  move_loop exp items f moved = (f, Ok moved).
Proof.
  induction items as [|[lo real] rest IH]; intros Hno; [done|].
  cbn [move_loop].
  assert (move_loop exp rest f moved = (f, Ok moved)) as ->.
  { apply IH. intros ????? Hin. apply Hno. by right. }
  destruct (exp !! lo) as [[p c]|] eqn:He; [|done].
  destruct (PyDict.get real (raw_dir f)) as [nd|] eqn:Hg; [|done].
  rewrite (Hno lo real p c nd); [done | by left | done..].
Qed.

(** With an expected index that is not empty the report has missing = |expected index| - moved and
    coveragePct = 100 * moved / |expected index|. *)
Lemma report_of_nonempty_index m f f' rep :
  size (expected_files m) ≠ 0 →
  organize_unsw (Some m) f = (f', Ok rep) →
  missing rep = (Z.of_nat (size (expected_files m)) - moved rep)%Z
  ∧ coveragePct rep
    = (inject_Z (100 * moved rep) / inject_Z (Z.of_nat (size (expected_files m))))%Q.
Proof.
  intros Hne. unfold organize_unsw.
  destruct (organize_files m f) as [f1 [n|e]]; [|done]. simpl.
  rewrite final_stats_nonempty by done. by intros [= _ <-].
Qed.

(** C1. On an empty manifest the expected index is empty and the script,
    after its moves (none), stops in the final statistics with a
    [ZeroDivisionError] instead of reporting a coverage of 0. *)
Theorem empty_manifest_zero_division (f : fs) :
  expected_files [] = ∅
  ∧ organize_files [] f = (f, Ok 0)
  ∧ organize_unsw (Some []) f = (f, Raise ZeroDivisionError).
Proof.
  assert (organize_files [] f = (f, Ok 0)) as Hrun.
  { unfold organize_files. cbn [PyDict.keys fmap list_fmap foldl].
    rewrite move_loop_nothing; [by destruct f|].
    intros lo real p c nd _ He. unfold expected_files in He.
    cbn [foldl] in He. by rewrite lookup_empty in He. }
  split_and!; [done | done |].
  unfold organize_unsw. by rewrite Hrun.
Qed.

(** C10. In a run of the reconciler every lowered name stands for one staged
    file, every move takes one entry out of the staging directory, and the
    number of moves is at most the size of the expected index, so that the
    missing count is not negative. *)
Theorem moved_bounded (m : manifest) (f : fs) :
  NoDup (PyDict.keys (raw_dir f)) →
  ∃ f' n,
    organize_files m f = (f', Ok n)
    ∧ NoDup (PyDict.keys (actual_files (raw_dir f)))
    ∧ NoDup ((actual_files (raw_dir f)).*2)
    ∧ raw_dir f' `sublist_of` raw_dir f
    ∧ length (raw_dir f) = n + length (raw_dir f')
    ∧ n ≤ size (expected_files m)
    ∧ (0 ≤ Z.of_nat (size (expected_files m)) - Z.of_nat n)%Z
    ∧ ∀ rep, final_stats (expected_files m) n = Ok rep →
        (0 ≤ missing rep)%Z
        ∧ (moved rep ≤ Z.of_nat (size (expected_files m)))%Z.
Proof.
  intros Hraw.
  destruct (organize_files_spec m f Hraw)
    as (f' & n & Hrun & Hlen & Hsub & Hn & _).
  pose proof (expected_items_bound (expected_files m)
                (actual_files (raw_dir f)) (actual_files_keys _)) as Hb.
  exists f', n. split_and!; try done.
  - apply actual_files_keys.
  - apply actual_files_names.
  - lia.
  - lia.
  - intros rep. unfold final_stats.
    destruct (truediv _ _); [|done]. intros [= <-]. simpl. lia.
Qed.

(** The reconciler of [organize_unsw.py] leaves a staged file of
    size 0 in the staging directory and puts nothing of that name in the
    tree; no move is counted for it. *)
Lemma zero_byte_stays m f name nd :
  NoDup (PyDict.keys (raw_dir f)) →
  PyDict.get name (raw_dir f) = Some nd →
  st_size nd = 0%N →
  ∃ f' n,
    organize_files m f = (f', Ok n)
    ∧ PyDict.get name (raw_dir f') = Some nd
    ∧ (∀ cls, tree_get (base_dir f') cls name = tree_get (base_dir f) cls name)
    ∧ n ≤ length (raw_dir f) - 1.
Proof.
  intros Hraw Hget Hsize.
  destruct (organize_files_spec m f Hraw)
    as (f' & n & Hrun & Hlen & Hsub & Hn & Hdom & Hkeep & Hgone).
  simpl in Hlen, Hkeep. destruct (Hkeep name) as [Hk1 Hk2].
  { intros cls nd' (lo & p & _ & _ & Hg & Hs). simpl in Hg.
    rewrite Hget in Hg. simplify_eq. lia. }
  exists f', n. split_and!; [done | by rewrite Hk1 | |].
  - intros cls. by rewrite Hk2, makedirs_all_tree_get.
  - assert (length (raw_dir f') ≠ 0); [|lia].
    rewrite Hget in Hk1. by destruct (raw_dir f').
Qed.

(** C4. The organise step of [main] in [download_unsw.py] has no size
    check: it moves an expected staged file of size 0 into the tree and
    counts it, where the reconciler leaves it staged. *)
Theorem main_moves_zero_byte_file :
  PyDict.get "b.jpg" (raw_dir zero_byte_fs) = Some (regular 0)
  ∧ raw_dir (main_organize zero_byte_manifest zero_byte_fs).1 = []
  ∧ tree_get (base_dir (main_organize zero_byte_manifest zero_byte_fs).1)
      "fox" "b.jpg" = Some (regular 0)
  ∧ (main_organize zero_byte_manifest zero_byte_fs).2 = Ok 1
  ∧ raw_dir (organize_files zero_byte_manifest zero_byte_fs).1
    = [("b.jpg", regular 0)]
  ∧ (organize_files zero_byte_manifest zero_byte_fs).2 = Ok 0.
Proof. vm_compute. done. Qed.

(** C6, as stated, fails in three ways: an empty staged file is not moved;
    a staged file whose base name is listed under two classes goes to the
    class listed last only; of two staged files that differ in case only,
    the one scanned first stays. *)
Lemma case_match_counterexample :
  (lower (basename "some/path/fox_001.jpg") = lower "Fox_001.JPG"
   ∧ PyDict.get "Fox_001.JPG" (raw_dir clash_fs) = Some (regular 0)
   ∧ tree_get (base_dir (organize_files clash_manifest clash_fs).1)
       "fox" "Fox_001.JPG" = None)
  ∧ (lower (basename "p/a.jpg") = lower "a.jpg"
     ∧ PyDict.get "a.jpg" (raw_dir clash_fs) = Some (regular 5)
     ∧ tree_get (base_dir (organize_files clash_manifest clash_fs).1)
         "fox" "a.jpg" = None)
  ∧ (lower (basename "z.jpg") = lower "Z.jpg"
     ∧ PyDict.get "Z.jpg" (raw_dir clash_fs) = Some (regular 3)
     ∧ tree_get (base_dir (organize_files clash_manifest clash_fs).1)
         "fox" "Z.jpg" = None).
Proof. vm_compute. done. Qed.

(** C6, amended. A staged regular file of non-zero size whose name equals,
    ignoring case, the base name of a manifest entry of class [cls] is moved
    to [cls]/<its name as staged>, provided no other staged regular file has
    that name ignoring case and every manifest entry with that base name
    ignoring case is of class [cls]. *)
Theorem case_insensitive_move (m : manifest) (f : fs)
    (name : string) (nd : node) (cls full_path : string) (paths : list string) :
  NoDup (PyDict.keys (raw_dir f)) →
  PyDict.get name (raw_dir f) = Some nd →
  is_file nd = true →
  (0 < st_size nd)%N →
  (cls, paths) ∈ m →
  full_path ∈ paths →
  lower (basename full_path) = lower name →
  (∀ name' nd', (name', nd') ∈ raw_dir f → is_file nd' = true →
     lower name' = lower name → name' = name) →
  (∀ cls' paths' p', (cls', paths') ∈ m → p' ∈ paths' →
     lower (basename p') = lower name → cls' = cls) →
  ∃ f' n,
    organize_files m f = (f', Ok n)
    ∧ PyDict.get name (raw_dir f') = None
    ∧ tree_get (base_dir f') cls name = Some nd.
Proof.
  intros Hraw Hget Hfile Hsize Hm Hp Hlow Huniq Hcls.
  destruct (organize_files_spec m f Hraw) as (f' & n & Hrun & Hout).
  destruct Hout as (_ & _ & _ & _ & _ & Hgone).
  exists f', n. split; [done|]. apply Hgone. simpl.
  destruct (expected_files_covers m cls paths full_path Hm Hp) as [[p' c'] He].
  rewrite Hlow in He.
  destruct (expected_files_elem _ _ _ _ He) as (Hkey & ps & Hin & Hp').
  assert (c' = cls) as -> by (by eapply Hcls).
  exists (lower name), p'. split_and!; [|done..].
  destruct (scan_get_covers (raw_dir f) [] name nd) as [real Hreal];
    [by apply get_Some_elem | done |].
  apply get_Some_elem in Hreal. rewrite <- actual_files_fold in Hreal.
  destruct (actual_files_elem _ _ _ Hreal) as (Hlo & nd' & Hin' & Hf').
  by rewrite (Huniq real nd') in Hreal.
Qed.

Lemma case_insensitive_move_witness :
  ∃ f' n,
    organize_files cased_manifest cased_fs = (f', Ok n)
    ∧ PyDict.get "Fox_001.JPG" (raw_dir f') = None
    ∧ tree_get (base_dir f') "fox" "Fox_001.JPG" = Some (regular 7).
Proof.
  apply (case_insensitive_move cased_manifest cased_fs "Fox_001.JPG"
           (regular 7) "fox" "some/path/fox_001.jpg"
           ["some/path/fox_001.jpg"]).
  - vm_compute. apply NoDup_singleton.
  - reflexivity.
  - reflexivity.
  - reflexivity.
  - apply list_elem_of_singleton. reflexivity.
  - apply list_elem_of_singleton. reflexivity.
  - reflexivity.
  - intros name' nd' Hin _ _. apply list_elem_of_singleton in Hin.
    congruence.
  - intros cls' paths' p' Hin _ _. apply list_elem_of_singleton in Hin.
    congruence.
Defined.

(** C7, as stated, fails: with two staged names that differ in case only,
    the first run moves one of them and the second run moves the other, so
    the tree after two runs is not the tree after one. *)
Lemma second_run_counterexample :
  tree_get (base_dir (organize_files twin_manifest twin_fs).1) "fox" "A.jpg"
  = None
  ∧ tree_get
      (base_dir (organize_files twin_manifest
                   (organize_files twin_manifest twin_fs).1).1) "fox" "A.jpg"
    = Some (regular 10)
  ∧ base_dir (organize_files twin_manifest
                (organize_files twin_manifest twin_fs).1).1
    ≠ base_dir (organize_files twin_manifest twin_fs).1.
Proof.
  assert (tree_get (base_dir (organize_files twin_manifest twin_fs).1)
            "fox" "A.jpg" = None) as H1 by (by vm_compute).
  assert (tree_get
            (base_dir (organize_files twin_manifest
                         (organize_files twin_manifest twin_fs).1).1)
            "fox" "A.jpg" = Some (regular 10)) as H2 by (by vm_compute).
  split_and!; [done | done |]. intros Heq. rewrite Heq, H1 in H2. done.
Qed.

(** C7, amended. Two runs of the reconciler in a row both complete; each
    run counts exactly the entries it takes out of the staging directory; a
    file moved by the first run is no longer staged, so the second run
    neither moves nor counts it and leaves it where the first run put it;
    and when no two staged regular files have names that are equal ignoring
    case, the second run moves nothing and leaves the tree of the first run
    as it is, in whatever order it scans what is left in the staging
    directory. *)
Theorem second_run (m : manifest) (f : fs) :
  NoDup (PyDict.keys (raw_dir f)) →
  ∃ f1 n1 f2 n2,
    organize_files m f = (f1, Ok n1)
    ∧ organize_files m f1 = (f2, Ok n2)
    ∧ raw_dir f1 `sublist_of` raw_dir f
    ∧ raw_dir f2 `sublist_of` raw_dir f1
    ∧ length (raw_dir f) = n1 + length (raw_dir f1)
    ∧ length (raw_dir f1) = n2 + length (raw_dir f2)
    ∧ (∀ name cls nd,
         moved_by (expected_files m) (actual_files (raw_dir f)) (raw_dir f)
           name cls nd →
         PyDict.get name (raw_dir f1) = None
         ∧ tree_get (base_dir f1) cls name = Some nd
         ∧ PyDict.get name (raw_dir f2) = None
         ∧ tree_get (base_dir f2) cls name = Some nd)
    ∧ (case_distinct (raw_dir f) →
       f2 = f1 ∧ n2 = 0
       ∧ ∀ g, raw_dir g ≡ₚ raw_dir f1 → base_dir g = base_dir f1 →
           organize_files m g = (g, Ok 0)).
Proof.
  intros Hraw.
  destruct (organize_files_spec m f Hraw)
    as (f1 & n1 & Hrun1 & Hlen1 & Hsub1 & _ & Hdom1 & _ & Hgone1).
  simpl in Hlen1, Hsub1, Hdom1, Hgone1.
  assert (NoDup (PyDict.keys (raw_dir f1))) as Hraw1.
  { apply (sublist_NoDup _ (PyDict.keys (raw_dir f))); [done|].
    unfold PyDict.keys. by apply fmap_sublist. }
  destruct (organize_files_spec m f1 Hraw1)
    as (f2 & n2 & Hrun2 & Hlen2 & Hsub2 & _ & _ & Hkeep2 & _).
  simpl in Hlen2, Hsub2, Hkeep2.
  exists f1, n1, f2, n2. split_and!; try done.
  { intros name cls nd Hm. destruct (Hgone1 name cls nd Hm) as [Hg1 Ht1].
    destruct (Hkeep2 name) as [Hg2 Ht2].
    { intros c' nd' (lo & p & _ & _ & Hg & _). congruence. }
    split_and!; [done | done | congruence |].
    by rewrite Ht2, makedirs_all_tree_get. }
  intros Hcase.
  assert (∀ g, raw_dir g ≡ₚ raw_dir f1 → base_dir g = base_dir f1 →
            organize_files m g = (g, Ok 0)) as Hidle.
  { intros g Hperm Hbase. unfold organize_files. rewrite makedirs_all_id.
    - rewrite move_loop_nothing; [by destruct g|].
      intros lo real p c nd Hitem He Hg. simpl in Hg.
      destruct (N.eq_dec (st_size nd) 0%N) as [|Hpos]; [done|]. exfalso.
      destruct (actual_files_elem _ _ _ Hitem) as (-> & nd' & Hin' & Hf').
      apply get_Some_elem in Hg. rewrite Hperm in Hin', Hg.
      assert (PyDict.get real (raw_dir f1) = None) as Hnone.
      { apply (Hgone1 real c nd). exists (lower real), p. split_and!.
        + eapply actual_files_claims; [done | | done].
          by eapply elem_of_sublist.
        + done.
        + apply elem_get_Some; [done|]. by eapply elem_of_sublist.
        + lia. }
      apply (elem_get_Some _ _ _ Hraw1) in Hg. congruence.
    - intros c Hc. rewrite Hbase. apply elem_of_dom. rewrite Hdom1.
      apply elem_of_dom. apply makedirs_all_lookup. by left. }
  rewrite (Hidle f1) in Hrun2 by done. by simplify_eq.
Qed.

Lemma second_run_witness :
  ∃ f1 n1 f2 n2,
    organize_files example_manifest example_fs = (f1, Ok n1)
    ∧ organize_files example_manifest f1 = (f2, Ok n2)
    ∧ raw_dir f1 `sublist_of` raw_dir example_fs
    ∧ raw_dir f2 `sublist_of` raw_dir f1
    ∧ length (raw_dir example_fs) = n1 + length (raw_dir f1)
    ∧ length (raw_dir f1) = n2 + length (raw_dir f2)
    ∧ (∀ name cls nd,
         moved_by (expected_files example_manifest)
           (actual_files (raw_dir example_fs)) (raw_dir example_fs)
           name cls nd →
         PyDict.get name (raw_dir f1) = None
         ∧ tree_get (base_dir f1) cls name = Some nd
         ∧ PyDict.get name (raw_dir f2) = None
         ∧ tree_get (base_dir f2) cls name = Some nd)
    ∧ (case_distinct (raw_dir example_fs) →
       f2 = f1 ∧ n2 = 0
       ∧ ∀ g, raw_dir g ≡ₚ raw_dir f1 → base_dir g = base_dir f1 →
           organize_files example_manifest g = (g, Ok 0)).
Proof.
  apply (second_run example_manifest example_fs).
  vm_compute. repeat constructor; set_solver.
Defined.

Lemma moved_bounded_witness :
  ∃ f' n,
    organize_files example_manifest example_fs = (f', Ok n)
    ∧ NoDup (PyDict.keys (actual_files (raw_dir example_fs)))
    ∧ NoDup ((actual_files (raw_dir example_fs)).*2)
    ∧ raw_dir f' `sublist_of` raw_dir example_fs
    ∧ length (raw_dir example_fs) = n + length (raw_dir f')
    ∧ n ≤ size (expected_files example_manifest)
    ∧ (0 ≤ Z.of_nat (size (expected_files example_manifest)) - Z.of_nat n)%Z
    ∧ ∀ rep, final_stats (expected_files example_manifest) n = Ok rep →
        (0 ≤ missing rep)%Z
        ∧ (moved rep ≤ Z.of_nat (size (expected_files example_manifest)))%Z.
Proof.
  apply (moved_bounded example_manifest example_fs).
  vm_compute. repeat constructor; set_solver.
Defined.

Lemma index_last_write_wins_witness :
  ∃ cls, cat_id_to_name example_metadata !! 2%Z = Some cls
         ∧ PyDict.get "x/a.jpg" example_index = Some cls.
Proof.
  apply (index_last_write_wins example_metadata example_index
           [ {| a_image_id := 10; a_category_id := 1 |};
             {| a_image_id := 11; a_category_id := 1 |};
             {| a_image_id := 12; a_category_id := 2 |};
             {| a_image_id := 13; a_category_id := 1 |};
             {| a_image_id := 14; a_category_id := 3 |} ]
           [ {| a_image_id := 14; a_category_id := 1 |};
             {| a_image_id := 15; a_category_id := 1 |} ]
           {| a_image_id := 10; a_category_id := 2 |} "x/a.jpg").
  - vm_compute. reflexivity.
  - reflexivity.
  - vm_compute. reflexivity.
  - repeat constructor; vm_compute; discriminate.
Defined.

(** * Further properties of the two scripts *)

(** ** The sampler, beyond the sample sizes *)

Lemma lookup_foldl_insert_Some {A} (key : A → Z) (val : A → string)
    (l : list A) (m : gmap Z string) (i : Z) (v : string) :
  foldl (λ m x, <[key x := val x]> m) m l !! i = Some v →
  m !! i = Some v ∨ ∃ x, x ∈ l ∧ key x = i ∧ val x = v.
Proof.
  revert m. induction l as [|x l IH]; intros m; simpl; [by left|].
  intros [Hm|(y & Hy & ?)]%IH.
  - apply lookup_insert_Some in Hm as [[<- <-]|[_ ?]]; [|by left].
    right. exists x. split; [by left | done].
  - right. exists y. split; [by right | done].
Qed.

Lemma lookup_foldl_insert_last {A} (key : A → Z) (val : A → string)
    (pre post : list A) (x : A) (m : gmap Z string) :
  key x ∉ key <$> post →
  foldl (λ m x, <[key x := val x]> m) m (pre ++ x :: post) !! key x
  = Some (val x).
Proof.
  intros Hpost. rewrite foldl_app. cbn [foldl].
  generalize (foldl (λ m x, <[key x := val x]> m) m pre). intros m'.
  destruct (foldl _ (<[key x:=val x]> m') post !! key x) as [v|] eqn:Hv.
  - apply lookup_foldl_insert_Some in Hv as [Hv|(y & Hy & Hk & _)].
    + by rewrite lookup_insert_eq in Hv.
    + destruct Hpost. apply list_elem_of_fmap. by exists y.
  - apply lookup_foldl_insert_None in Hv as [Hv _].
    by rewrite lookup_insert_eq in Hv.
Qed.

Lemma fold_annotations_elem data anns acc ftc f cls :
  fold_annotations (cat_id_to_name data) (img_id_to_file data) anns acc = Ok ftc →
  (f, cls) ∈ ftc →
  (f, cls) ∈ acc
  ∨ ∃ ann, ann ∈ anns ∧ annotated_file data ann = Some f
           ∧ cat_id_to_name data !! a_category_id ann = Some cls.
Proof.
  revert acc. induction anns as [|ann anns IH]; intros acc; simpl.
  - intros [= ->]. by left.
  - destruct (img_id_to_file data !! a_image_id ann) as [f0|] eqn:Hi; [|done].
    destruct (cat_id_to_name data !! a_category_id ann) as [c0|] eqn:Hc; [|done].
    intros Hrest Hin. destruct (IH _ Hrest Hin) as [Hacc|(a & Ha & ?)].
    + apply elem_of_dict_set in Hacc as [[-> ->]|?]; [|by left].
      right. exists ann. split; [by left | done].
    + right. exists a. split; [by right | done].
Qed.

Lemma fold_annotations_length cats imgs anns acc ftc :
  fold_annotations cats imgs anns acc = Ok ftc →
  length ftc ≤ length acc + length anns.
Proof.
  revert acc. induction anns as [|ann anns IH]; intros acc; simpl.
  - intros [= ->]. lia.
  - destruct (imgs !! a_image_id ann) as [f0|]; [|done].
    destruct (cats !! a_category_id ann) as [c0|]; [|done].
    intros Hrest%IH.
    assert (length (PyDict.set f0 c0 acc) ≤ S (length acc)); [|lia].
    clear. induction acc as [|[k v] acc IH]; simpl; [lia|].
    case_decide; simpl; lia.
Qed.

Lemma sample_classes_keys {G : Type} (randbelow : G → nat → nat * G)
    items acc g m g' :
  sample_classes randbelow items acc g = Ok (m, g') →
  NoDup (PyDict.keys acc ++ PyDict.keys items) →
  PyDict.keys m = PyDict.keys acc ++ PyDict.keys items.
Proof.
  revert acc g. induction items as [|[c files] items IH]; intros acc g; simpl.
  - intros [= <- <-] _. by rewrite app_nil_r.
  - destruct (sample _ files _ g) as [[s g1]|] eqn:Hs; [|done]. simpl.
    intros Hrest Hnd.
    assert (PyDict.keys (PyDict.set c s acc) = PyDict.keys acc ++ [c]) as Hk.
    { rewrite keys_set. destruct (PyDict.get c acc) eqn:Hg; [|done].
      apply NoDup_app in Hnd as (_ & Hdisj & _).
      destruct (Hdisj c); [|by left].
      apply get_Some_elem in Hg. apply list_elem_of_fmap. by exists (c, l). }
    rewrite (IH _ _ Hrest); rewrite Hk, <- app_assoc; done.
Qed.

Lemma computed_manifest_entry {G : Type} (seed : Z → G)
    (randbelow : G → nat → nat * G) data w m w' ftc cls l :
  (∀ g n, 0 < n → (randbelow g n).1 < n) →
  sample_file w = None →
  get_sampled_files seed randbelow data w = Ok (m, w') →
  file_to_class data = Ok ftc →
  PyDict.get cls m = Some l →
  cls ∈ DESIRED_CLASSES
  ∧ candidates cls ftc ≠ []
  ∧ l ⊆+ candidates cls ftc
  ∧ length l = sample_size (candidates cls ftc).
Proof.
  intros Hlt Hw. unfold get_sampled_files. rewrite Hw. intros Hrun Hftc.
  rewrite Hftc in Hrun. simpl in Hrun.
  destruct (sample_classes _ _ _ _) as [[sampled g']|] eqn:Hs; [|done].
  simpl in Hrun. injection Hrun as <- <-. intros Hget.
  apply (sample_classes_get _ _ _ _ _ _ _ _ Hs) in Hget
    as [[? _]|(files & g1 & g2 & Hin & Hsam)];
    [done | | apply class_to_files_keys].
  apply elem_get_Some in Hin; [|apply class_to_files_keys].
  apply class_to_files_get in Hin as (Hd & -> & Hne).
  apply (sample_spec _ Hlt) in Hsam as (Hlen & Hsub & _). done.
Qed.

Lemma computed_manifest_keys {G : Type} (seed : Z → G)
    (randbelow : G → nat → nat * G) data w m w' ftc :
  sample_file w = None →
  get_sampled_files seed randbelow data w = Ok (m, w') →
  file_to_class data = Ok ftc →
  PyDict.keys m = PyDict.keys (class_to_files ftc)
  ∧ w' = {| sample_file := Some m; rng := rng w' |}.
Proof.
  intros Hw. unfold get_sampled_files. rewrite Hw. intros Hrun Hftc.
  rewrite Hftc in Hrun. simpl in Hrun.
  destruct (sample_classes _ _ _ _) as [[sampled g']|] eqn:Hs; [|done].
  simpl in Hrun. injection Hrun as <- <-. split; [|done].
  apply sample_classes_keys in Hs; [done|]. apply class_to_files_keys.
Qed.

(** X1. A computed manifest has each class once, and its classes are the
    desired classes that have at least one file in the index: a desired
    class without files gets no entry, and no other class gets one. *)
Theorem computed_manifest_classes {G : Type} (seed : Z → G)
    (randbelow : G → nat → nat * G) (data : metadata) (w w' : world G)
    (m : manifest) :
  (∀ g n, 0 < n → (randbelow g n).1 < n) →
  sample_file w = None →
  get_sampled_files seed randbelow data w = Ok (m, w') →
  ∃ ftc, file_to_class data = Ok ftc
    ∧ NoDup (PyDict.keys m)
    ∧ ∀ cls, is_Some (PyDict.get cls m)
             ↔ cls ∈ DESIRED_CLASSES ∧ ∃ fname, (fname, cls) ∈ ftc.
Proof.
  intros Hlt Hw Hrun.
  destruct (file_to_class data) as [ftc|] eqn:Hftc.
  2:{ unfold get_sampled_files in Hrun. by rewrite Hw, Hftc in Hrun. }
  destruct (computed_manifest_keys _ _ _ _ _ _ _ Hw Hrun Hftc) as [Hkeys _].
  exists ftc. split_and!; [done | rewrite Hkeys; apply class_to_files_keys |].
  intros cls.
  assert (is_Some (PyDict.get cls m)
          ↔ is_Some (PyDict.get cls (class_to_files ftc))) as ->.
  { rewrite <- !not_eq_None_Some, !get_None, Hkeys. done. }
  split.
  - intros [files (Hd & -> & Hne)%class_to_files_get]. split; [done|].
    destruct (candidates cls ftc) as [|f fs] eqn:Hc; [done|].
    exists f. apply candidates_elem. rewrite Hc. by left.
  - intros [Hd [f Hf%candidates_elem]]. exists (candidates cls ftc).
    apply class_to_files_get. split_and!; [done..|].
    intros Hnil. rewrite Hnil in Hf. by apply elem_of_nil in Hf.
Qed.

Lemma computed_manifest_classes_witness :
  ∃ ftc, file_to_class example_metadata = Ok ftc
    ∧ NoDup (PyDict.keys [("dingo", ["x/a.jpg"]); ("fox", ["f.jpg"; "e.jpg"])])
    ∧ ∀ cls, is_Some (PyDict.get cls
                        [("dingo", ["x/a.jpg"]); ("fox", ["f.jpg"; "e.jpg"])])
             ↔ cls ∈ DESIRED_CLASSES ∧ ∃ fname, (fname, cls) ∈ ftc.
Proof.
  apply (computed_manifest_classes lcg_seed lcg_randbelow example_metadata
           (fresh_world 7)
           {| sample_file := Some [("dingo", ["x/a.jpg"]); ("fox", ["f.jpg"; "e.jpg"])];
              rng := 1000676753%N |}).
  - exact lcg_randbelow_lt.
  - reflexivity.
  - vm_compute. reflexivity.
Defined.

Lemma computed_manifest_files {G : Type} (seed : Z → G)
    (randbelow : G → nat → nat * G) (data : metadata) (w w' : world G)
    (m : manifest) (ftc : list (string * string)) :
  (∀ g n, 0 < n → (randbelow g n).1 < n) →
  sample_file w = None →
  get_sampled_files seed randbelow data w = Ok (m, w') →
  file_to_class data = Ok ftc →
  (∀ cls l fname, (cls, l) ∈ m → fname ∈ l → PyDict.get fname ftc = Some cls)
  ∧ NoDup (all_files m).
Proof.
  intros Hlt Hw Hrun Hftc.
  destruct (computed_manifest_keys _ _ _ _ _ _ _ Hw Hrun Hftc) as [Hkeys _].
  assert (NoDup (PyDict.keys m)) as Hnd.
  { rewrite Hkeys. apply class_to_files_keys. }
  assert (NoDup (PyDict.keys ftc)) as Hndf by (by eapply file_to_class_keys).
  assert (∀ cls l, (cls, l) ∈ m →
            l ⊆+ candidates cls ftc) as Hentry.
  { intros cls l Hin%(elem_get_Some _ _ _ Hnd).
    by destruct (computed_manifest_entry _ _ _ _ _ _ _ _ _ Hlt Hw Hrun Hftc Hin)
      as (_ & _ & ? & _). }
  assert (∀ cls l fname, (cls, l) ∈ m → fname ∈ l →
            PyDict.get fname ftc = Some cls) as Hclass.
  { intros cls l fname Hin Hf. apply elem_get_Some; [done|].
    apply candidates_elem. eapply elem_of_submseteq; [done|]. by eapply Hentry. }
  split; [done|]. unfold all_files. apply NoDup_bind.
  - intros [c1 l1] [c2 l2] f Hin1 Hin2 Hf1 Hf2. simpl in *.
    pose proof (Hclass _ _ _ Hin1 Hf1) as H1.
    pose proof (Hclass _ _ _ Hin2 Hf2) as H2.
    assert (c1 = c2) as <- by congruence.
    apply (elem_get_Some _ _ _ Hnd) in Hin1, Hin2. congruence.
  - intros [c l] Hin. simpl. eapply submseteq_NoDup; [by eapply Hentry|].
    by apply candidates_NoDup.
  - by apply (NoDup_fmap_1 fst).
Qed.

(** X2. In a computed manifest every name listed under a class is a file
    of that class in the index, so no name is listed twice, neither within
    a class nor under two classes. *)
Theorem computed_manifest_disjoint {G : Type} (seed : Z → G)
    (randbelow : G → nat → nat * G) (data : metadata) (w w' : world G)
    (m : manifest) (ftc : list (string * string)) :
  (∀ g n, 0 < n → (randbelow g n).1 < n) →
  sample_file w = None →
  get_sampled_files seed randbelow data w = Ok (m, w') →
  file_to_class data = Ok ftc →
  (∀ cls l fname, (cls, l) ∈ m → fname ∈ l → PyDict.get fname ftc = Some cls)
  ∧ NoDup (all_files m).
Proof. apply computed_manifest_files. Qed.

Lemma computed_manifest_disjoint_witness :
  (∀ cls l fname,
     (cls, l) ∈ [("dingo", ["x/a.jpg"]); ("fox", ["f.jpg"; "e.jpg"])] →
     fname ∈ l → PyDict.get fname example_index = Some cls)
  ∧ NoDup (all_files [("dingo", ["x/a.jpg"]); ("fox", ["f.jpg"; "e.jpg"])]).
Proof.
  apply (computed_manifest_disjoint lcg_seed lcg_randbelow example_metadata
           (fresh_world 7)
           {| sample_file := Some [("dingo", ["x/a.jpg"]); ("fox", ["f.jpg"; "e.jpg"])];
              rng := 1000676753%N |}).
  - exact lcg_randbelow_lt.
  - reflexivity.
  - vm_compute. reflexivity.
  - vm_compute. reflexivity.
Defined.

(** X3. Once a call of the sampler has returned a manifest, every later
    call returns that manifest and changes nothing, whatever metadata it is
    given: what the first call stored is what the later calls read. *)
Theorem sampler_stable {G : Type} (seed : Z → G)
    (randbelow : G → nat → nat * G) (data data' : metadata) (w w' : world G)
    (m : manifest) :
  get_sampled_files seed randbelow data w = Ok (m, w') →
  sample_file w' = Some m
  ∧ get_sampled_files seed randbelow data' w' = Ok (m, w').
Proof.
  unfold get_sampled_files at 1. destruct (sample_file w) as [p|] eqn:Hw.
  - intros [= <- <-]. split; [done|]. unfold get_sampled_files. by rewrite Hw.
  - destruct (file_to_class data) as [ftc|]; [|done]. simpl.
    destruct (sample_classes _ _ _ _) as [[sampled g']|]; [|done]. simpl.
    intros [= <- <-]. done.
Qed.

Lemma sampler_stable_witness :
  sample_file
    {| sample_file := Some [("dingo", ["x/a.jpg"]); ("fox", ["f.jpg"; "e.jpg"])];
       rng := 1000676753%N |}
  = Some [("dingo", ["x/a.jpg"]); ("fox", ["f.jpg"; "e.jpg"])]
  ∧ get_sampled_files lcg_seed lcg_randbelow
      {| categories := []; images := []; annotations := [] |}
      {| sample_file := Some [("dingo", ["x/a.jpg"]); ("fox", ["f.jpg"; "e.jpg"])];
         rng := 1000676753%N |}
    = Ok ([("dingo", ["x/a.jpg"]); ("fox", ["f.jpg"; "e.jpg"])],
          {| sample_file := Some [("dingo", ["x/a.jpg"]); ("fox", ["f.jpg"; "e.jpg"])];
             rng := 1000676753%N |}).
Proof.
  apply (sampler_stable lcg_seed lcg_randbelow example_metadata
           {| categories := []; images := []; annotations := [] |}
           (fresh_world 7)).
  vm_compute. reflexivity.
Defined.

Lemma sampler_raise_cases {G : Type} (seed : Z → G)
    (randbelow : G → nat → nat * G) (data : metadata) (w : world G) (e : exn) :
  (∀ g n, 0 < n → (randbelow g n).1 < n) →
  get_sampled_files seed randbelow data w = Raise e
  ↔ sample_file w = None ∧ file_to_class data = Raise e.
Proof.
  intros Hlt. unfold get_sampled_files.
  destruct (sample_file w) as [p|]; [by split; [|intros [? _]]|].
  destruct (file_to_class data) as [ftc|e']; simpl.
  - destruct (sample_classes_total randbelow Hlt (class_to_files ftc) []
                (seed RANDOM_SEED)) as (m & g' & ->);
      [apply class_to_files_nonempty|].
    simpl. by split; [|intros [_ ?]].
  - split; [by intros [= ->] | by intros [_ [= ->]]].
Qed.

(** X4. The sampler fails only where the index fails: it raises exactly
    when no manifest is stored and building the index raises, with that
    very exception; [random.sample] is never asked for more names than a
    class has, and never reads outside its pool. *)
Theorem sampler_raises_iff {G : Type} (seed : Z → G)
    (randbelow : G → nat → nat * G) (data : metadata) (w : world G) (e : exn) :
  (∀ g n, 0 < n → (randbelow g n).1 < n) →
  get_sampled_files seed randbelow data w = Raise e
  ↔ sample_file w = None ∧ file_to_class data = Raise e.
Proof. apply sampler_raise_cases. Qed.

Lemma sampler_raises_iff_witness :
  get_sampled_files lcg_seed lcg_randbelow
    {| categories := []; images := [];
       annotations := [ {| a_image_id := 3; a_category_id := 4 |} ] |}
    (fresh_world 7) = Raise (KeyError 3)
  ↔ sample_file (fresh_world 7) = None
    ∧ file_to_class
        {| categories := []; images := [];
           annotations := [ {| a_image_id := 3; a_category_id := 4 |} ] |}
      = Raise (KeyError 3).
Proof. apply sampler_raises_iff. exact lcg_randbelow_lt. Defined.

(** X5. Every entry of the index comes from an annotation: its key is the
    file name of a listed image, its value the name of a listed category;
    the keys are distinct and there are at most as many as annotations. *)
Theorem index_entries_from_tables (data : metadata)
    (ftc : list (string * string)) :
  file_to_class data = Ok ftc →
  NoDup (PyDict.keys ftc)
  ∧ length ftc ≤ length (annotations data)
  ∧ ∀ fname cls, (fname, cls) ∈ ftc →
      fname ∈ (i_file_name <$> images data)
      ∧ cls ∈ (c_name <$> categories data)
      ∧ ∃ ann, ann ∈ annotations data
               ∧ annotated_file data ann = Some fname
               ∧ cat_id_to_name data !! a_category_id ann = Some cls.
Proof.
  intros Hf. split_and!.
  - by eapply file_to_class_keys.
  - apply fold_annotations_length in Hf. simpl in Hf. lia.
  - intros fname cls Hin.
    destruct (fold_annotations_elem _ _ _ _ _ _ Hf Hin)
      as [?%elem_of_nil|(ann & Ha & Hfile & Hcat)]; [done|].
    split_and!; [| |eauto].
    + unfold annotated_file, img_id_to_file in Hfile.
      apply lookup_foldl_insert_Some in Hfile as [Hfile|(i & Hi & _ & <-)].
      * by rewrite lookup_empty in Hfile.
      * apply list_elem_of_fmap. by exists i.
    + unfold cat_id_to_name in Hcat.
      apply lookup_foldl_insert_Some in Hcat as [Hcat|(c & Hc & _ & <-)].
      * by rewrite lookup_empty in Hcat.
      * apply list_elem_of_fmap. by exists c.
Qed.

Lemma index_entries_from_tables_witness :
  NoDup (PyDict.keys example_index)
  ∧ length example_index ≤ length (annotations example_metadata)
  ∧ ∀ fname cls, (fname, cls) ∈ example_index →
      fname ∈ (i_file_name <$> images example_metadata)
      ∧ cls ∈ (c_name <$> categories example_metadata)
      ∧ ∃ ann, ann ∈ annotations example_metadata
               ∧ annotated_file example_metadata ann = Some fname
               ∧ cat_id_to_name example_metadata !! a_category_id ann = Some cls.
Proof.
  apply (index_entries_from_tables example_metadata example_index).
  vm_compute. reflexivity.
Defined.

(** X6. In both id tables the last record of an id wins: a category id
    resolves to the name of the last category record that carries it, an
    image id to the file name of the last image record that carries it. *)
Theorem id_tables_last_record_wins (data : metadata)
    (cpre cpost : list category) (c : category)
    (ipre ipost : list image) (i : image) :
  categories data = cpre ++ c :: cpost →
  c_id c ∉ (c_id <$> cpost) →
  images data = ipre ++ i :: ipost →
  i_id i ∉ (i_id <$> ipost) →
  cat_id_to_name data !! c_id c = Some (c_name c)
  ∧ img_id_to_file data !! i_id i = Some (i_file_name i).
Proof.
  intros Hc Hcp Hi Hip. unfold cat_id_to_name, img_id_to_file.
  rewrite Hc, Hi. split; by apply lookup_foldl_insert_last.
Qed.

Lemma id_tables_last_record_wins_witness :
  cat_id_to_name
    {| categories := [ {| c_id := 1; c_name := "cat" |};
                       {| c_id := 1; c_name := "fox" |} ];
       images := [ {| i_id := 5; i_file_name := "old.jpg" |};
                   {| i_id := 5; i_file_name := "new.jpg" |} ];
       annotations := [] |} !! 1%Z = Some "fox"
  ∧ img_id_to_file
      {| categories := [ {| c_id := 1; c_name := "cat" |};
                         {| c_id := 1; c_name := "fox" |} ];
         images := [ {| i_id := 5; i_file_name := "old.jpg" |};
                     {| i_id := 5; i_file_name := "new.jpg" |} ];
         annotations := [] |} !! 5%Z = Some "new.jpg".
Proof.
  apply (id_tables_last_record_wins
           {| categories := [ {| c_id := 1; c_name := "cat" |};
                              {| c_id := 1; c_name := "fox" |} ];
              images := [ {| i_id := 5; i_file_name := "old.jpg" |};
                          {| i_id := 5; i_file_name := "new.jpg" |} ];
              annotations := [] |}
           [ {| c_id := 1; c_name := "cat" |} ] []
           {| c_id := 1; c_name := "fox" |}
           [ {| i_id := 5; i_file_name := "old.jpg" |} ] []
           {| i_id := 5; i_file_name := "new.jpg" |}).
  - reflexivity.
  - simpl. apply not_elem_of_nil.
  - reflexivity.
  - simpl. apply not_elem_of_nil.
Defined.

(** ** The keys of the two indexes *)

Lemma has_sep_basename_from acc p :
  has_sep (basename_from acc p) = has_sep acc && negb (has_sep p).
Proof.
  revert acc. induction p as [|c p IH]; intros acc; simpl.
  - by rewrite andb_true_r.
  - destruct (Ascii.eqb c "/"); rewrite IH; simpl.
    + rewrite andb_negb_r. by rewrite andb_false_r.
    + done.
Qed.

Lemma append_cons c s t :
  String.append (String c s) t = String c (String.append s t).
Proof. reflexivity. Qed.

Lemma append_nil t : String.append EmptyString t = t.
Proof. reflexivity. Qed.

Lemma basename_from_plain acc p : has_sep p = false → basename_from acc p = acc.
Proof.
  revert acc. induction p as [|c p IH]; intros acc; simpl; [done|].
  destruct (Ascii.eqb c "/"); [done|]. apply IH.
Qed.

(** ** The download list *)

Lemma append_inj_l s a b : String.append s a = String.append s b → a = b.
Proof.
  induction s as [|c s IH]; [done|]. rewrite !append_cons. intros [= ?]. auto.
Qed.

Lemma append_newline_inj a b :
  String.append a newline = String.append b newline → a = b.
Proof.
  revert b. induction a as [|c a IH]; intros [|c' b];
    rewrite ?append_cons, ?append_nil; unfold newline; try done.
  - intros [= _ Hb]. destruct b; by rewrite ?append_cons, ?append_nil in Hb.
  - intros [= _ Ha]. destruct a; by rewrite ?append_cons, ?append_nil in Ha.
  - intros [= -> ?]. f_equal. auto.
Qed.

Lemma download_line_inj f1 f2 : download_line f1 = download_line f2 → f1 = f2.
Proof.
  unfold download_line. intros H%append_inj_l. by apply append_newline_inj.
Qed.

Lemma download_list_NoDup m : NoDup (all_files m) → NoDup (download_list m).
Proof.
  intros Hnd. unfold download_list.
  apply NoDup_fmap_2_strong; [|done].
  intros f1 f2 _ _. apply download_line_inj.
Qed.

(** X8. The download list of a computed manifest has one line per sampled
    file, in the order of the manifest, each line being the bucket address
    followed by the file name and a line end; the file name can be read back
    from its line, and no line occurs twice. *)
Theorem download_list_of_computed_manifest {G : Type} (seed : Z → G)
    (randbelow : G → nat → nat * G) (data : metadata) (w w' : world G)
    (m : manifest) :
  (∀ g n, 0 < n → (randbelow g n).1 < n) →
  sample_file w = None →
  get_sampled_files seed randbelow data w = Ok (m, w') →
  length (download_list m) = length (all_files m)
  ∧ (∀ i fname, all_files m !! i = Some fname →
       download_list m !! i
       = Some (String.append IMAGES_URI (String.append fname newline)))
  ∧ (∀ f1 f2, download_line f1 = download_line f2 → f1 = f2)
  ∧ NoDup (download_list m).
Proof.
  intros Hlt Hw Hrun. split_and!.
  - unfold download_list. by rewrite length_fmap.
  - intros i fname Hi. unfold download_list.
    by rewrite list_lookup_fmap, Hi.
  - apply download_line_inj.
  - apply download_list_NoDup.
    destruct (file_to_class data) as [ftc|] eqn:Hftc.
    + by eapply computed_manifest_files.
    + unfold get_sampled_files in Hrun. by rewrite Hw, Hftc in Hrun.
Qed.

Lemma download_list_of_computed_manifest_witness :
  length (download_list [("dingo", ["x/a.jpg"]); ("fox", ["f.jpg"; "e.jpg"])])
  = length (all_files [("dingo", ["x/a.jpg"]); ("fox", ["f.jpg"; "e.jpg"])])
  ∧ (∀ i fname,
       all_files [("dingo", ["x/a.jpg"]); ("fox", ["f.jpg"; "e.jpg"])] !! i
       = Some fname →
       download_list [("dingo", ["x/a.jpg"]); ("fox", ["f.jpg"; "e.jpg"])] !! i
       = Some (String.append IMAGES_URI (String.append fname newline)))
  ∧ (∀ f1 f2, download_line f1 = download_line f2 → f1 = f2)
  ∧ NoDup (download_list [("dingo", ["x/a.jpg"]); ("fox", ["f.jpg"; "e.jpg"])]).
Proof.
  apply (download_list_of_computed_manifest lcg_seed lcg_randbelow
           example_metadata (fresh_world 7)
           {| sample_file := Some [("dingo", ["x/a.jpg"]); ("fox", ["f.jpg"; "e.jpg"])];
              rng := 1000676753%N |}).
  - exact lcg_randbelow_lt.
  - reflexivity.
  - vm_compute. reflexivity.
Defined.

(** ** The progress monitor *)

Lemma count_done_app raw l1 l2 :
  count_done raw (l1 ++ l2) = count_done raw l1 + count_done raw l2.
Proof. unfold count_done. by rewrite filter_app, length_app. Qed.

Lemma count_done_le raw files : count_done raw files ≤ length files.
Proof. apply length_filter. Qed.

Lemma count_done_all raw files :
  length files ≤ count_done raw files
  ↔ ∀ f, f ∈ files → staged raw f = true.
Proof.
  unfold count_done. induction files as [|f files IH].
  - split; [by intros _ f ?%elem_of_nil | simpl; lia].
  - rewrite filter_cons. pose proof (length_filter (λ f, staged raw f = true) files).
    destruct (decide (staged raw f = true)) as [Hf|Hf]; simpl.
    + rewrite <- Nat.succ_le_mono, IH. split.
      * intros Hall g [->|?]%elem_of_cons; auto.
      * intros Hall g Hg. apply Hall. by right.
    + split; [lia|]. intros Hall. destruct Hf. apply Hall. by left.
Qed.

Lemma all_files_cons cls files m :
  all_files ((cls, files) :: m) = files ++ all_files m.
Proof. done. Qed.

Lemma guarded_pct_bounds done total :
  done ≤ total →
  ∃ q, guarded_pct done total = Ok q
       ∧ Qle (inject_Z 0) q ∧ Qle q (inject_Z 100).
Proof.
  intros Hle. unfold guarded_pct, truediv. case_decide as Ht.
  - rewrite decide_False by lia. eexists. split; [done|]. split.
    + apply Qle_shift_div_l; [unfold Qlt; simpl; lia|].
      unfold Qle. simpl. lia.
    + apply Qle_shift_div_r; [unfold Qlt; simpl; lia|].
      unfold Qle. simpl. lia.
  - exists 0%Q. split; [done|]. split; unfold Qle; simpl; lia.
Qed.

Lemma poll_classes_spec raw items td te ls :
  ∃ ls',
    poll_classes raw items td te ls
    = Ok (td + count_done raw (all_files items),
          te + length (all_files items), ls ++ ls')
    ∧ line_cls <$> ls' = PyDict.keys items
    ∧ Forall (λ l, line_done l ≤ line_total l
                   ∧ Qle (inject_Z 0) (line_pct l)
                   ∧ Qle (line_pct l) (inject_Z 100)) ls'.
Proof.
  revert td te ls. induction items as [|[cls files] items IH]; intros td te ls.
  - exists []. simpl. rewrite !Nat.add_0_r, app_nil_r. done.
  - cbn [poll_classes].
    destruct (guarded_pct_bounds (count_done raw files) (length files))
      as (q & -> & Hq0 & Hq100); [apply count_done_le|].
    cbn [mbind result_bind rbind].
    destruct (IH (td + count_done raw files) (te + length files)
                (ls ++ [ {| line_cls := cls; line_done := count_done raw files;
                            line_total := length files; line_pct := q |} ]))
      as (ls' & -> & Hcls & Hall).
    eexists (_ :: ls'). split_and!.
    + rewrite all_files_cons, count_done_app, length_app, <- app_assoc.
      do 3 f_equal; lia.
    + cbn. by rewrite Hcls.
    + constructor; [|done]. simpl. split; [apply count_done_le | done].
Qed.

(** X9. A round of the progress monitor never fails, a class or a manifest
    without files included: both quotients are guarded. Its totals are
    those of the flattened manifest (files present, files listed), every
    count is at most its total, every percentage is between 0 and 100, there
    is one line per class in manifest order, and the exit test of the loop
    holds exactly when every listed file is in the staging directory. *)
Theorem poll_report_sound (sampled_by_class : manifest)
    (raw : list (string * node)) :
  ∃ r, poll sampled_by_class raw = Ok r
    ∧ total_done r = count_done raw (all_files sampled_by_class)
    ∧ total_expected r = length (all_files sampled_by_class)
    ∧ total_done r ≤ total_expected r
    ∧ Qle (inject_Z 0) (overall_pct r) ∧ Qle (overall_pct r) (inject_Z 100)
    ∧ line_cls <$> lines r = PyDict.keys sampled_by_class
    ∧ Forall (λ l, line_done l ≤ line_total l
                   ∧ Qle (inject_Z 0) (line_pct l)
                   ∧ Qle (line_pct l) (inject_Z 100)) (lines r)
    ∧ (total_expected r ≤ total_done r ↔ all_staged sampled_by_class raw).
Proof.
  unfold poll.
  destruct (poll_classes_spec raw sampled_by_class 0 0 [])
    as (ls & -> & Hcls & Hall).
  cbn.
  destruct (guarded_pct_bounds (count_done raw (all_files sampled_by_class))
              (length (all_files sampled_by_class)))
    as (q & -> & Hq0 & Hq100); [apply count_done_le|].
  cbn. eexists. split; [done|]. cbn.
  split_and!; try done.
  - apply count_done_le.
  - apply count_done_all.
Qed.

Lemma poll_exit sampled_by_class raw :
  ∃ r, poll sampled_by_class raw = Ok r
       ∧ (total_expected r ≤ total_done r ↔ all_staged sampled_by_class raw).
Proof.
  unfold poll.
  destruct (poll_classes_spec raw sampled_by_class 0 0 []) as (ls & -> & _).
  cbn.
  destruct (guarded_pct_bounds (count_done raw (all_files sampled_by_class))
              (length (all_files sampled_by_class)))
    as (q & -> & _); [apply count_done_le|].
  cbn. eexists. split; [done|]. cbn. apply count_done_all.
Qed.

(** X10. The monitor loop never fails; while no observation of the staging
    directory has all the listed files it keeps polling, one report per
    observation, and it leaves the loop at the first observation that has
    them all, with that report as its last. *)
Theorem monitor_stops_when_complete (sampled_by_class : manifest)
    (pending : list (list (string * node))) :
  Forall (λ raw, ¬ all_staged sampled_by_class raw) pending →
  (∃ rs, monitor_progress sampled_by_class pending = Ok (rs, false)
         ∧ length rs = length pending)
  ∧ ∀ raw later, all_staged sampled_by_class raw →
      ∃ rs, monitor_progress sampled_by_class (pending ++ raw :: later)
            = Ok (rs, true)
            ∧ length rs = S (length pending).
Proof.
  induction pending as [|raw0 pending IH]; intros Hpending.
  - split; [by exists []|]. intros raw later Hraw. cbn [app monitor_progress].
    destruct (poll_exit sampled_by_class raw) as (r & -> & Hexit). cbn.
    rewrite decide_True by (by apply Hexit). by exists [r].
  - apply Forall_cons in Hpending as [Hraw0 Hpending].
    destruct (IH Hpending) as [(rs & Hrs & Hlen) Hlater].
    destruct (poll_exit sampled_by_class raw0) as (r0 & Hr0 & Hexit).
    split.
    + cbn [monitor_progress]. rewrite Hr0. cbn.
      rewrite decide_False by (by rewrite Hexit). rewrite Hrs. cbn.
      exists (r0 :: rs). split; [done | simpl; by rewrite Hlen].
    + intros raw later Hraw.
      destruct (Hlater raw later Hraw) as (rs' & Hrs' & Hlen').
      rewrite <- app_comm_cons. cbn [monitor_progress]. rewrite Hr0. cbn.
      rewrite decide_False by (by rewrite Hexit). rewrite Hrs'. cbn.
      exists (r0 :: rs'). split; [done | simpl; by rewrite Hlen'].
Qed.

Lemma monitor_stops_when_complete_witness :
  (∃ rs, monitor_progress example_manifest [ [("a.jpg", regular 10)] ]
         = Ok (rs, false)
         ∧ length rs = length [ [("a.jpg", regular 10)] ])
  ∧ ∀ raw later, all_staged example_manifest raw →
      ∃ rs, monitor_progress example_manifest
              ([ [("a.jpg", regular 10)] ] ++ raw :: later)
            = Ok (rs, true)
            ∧ length rs = S (length [ [("a.jpg", regular 10)] ]).
Proof.
  apply (monitor_stops_when_complete example_manifest
           [ [("a.jpg", regular 10)] ]).
  repeat constructor. intros Hall.
  specialize (Hall "c.jpg"). vm_compute in Hall.
  assert (false = true) as Hf; [|discriminate Hf].
  apply Hall. set_solver.
Defined.

(** ** The organise step of [main] *)

Lemma staged_true raw name :
  staged raw name = true ↔ is_Some (PyDict.get name raw).
Proof.
  unfold staged. destruct (PyDict.get name raw); split; try done; eauto.
Qed.

Lemma get_sublist (raw1 raw : list (string * node)) name nd :
  NoDup (PyDict.keys raw) → raw1 `sublist_of` raw →
  PyDict.get name raw1 = Some nd → PyDict.get name raw = Some nd.
Proof.
  intros Hnd Hsub Hg. apply elem_get_Some; [done|].
  eapply elem_of_sublist; [|done]. by apply get_Some_elem.
Qed.

Lemma NoDup_keys_sublist (raw1 raw : list (string * node)) :
  NoDup (PyDict.keys raw) → raw1 `sublist_of` raw → NoDup (PyDict.keys raw1).
Proof.
  intros Hnd Hsub. apply (sublist_NoDup _ (PyDict.keys raw)); [done|].
  unfold PyDict.keys. by apply fmap_sublist.
Qed.

Lemma class_target_Some cls files name c :
  class_target cls files name = Some c ↔ c = cls ∧ name ∈ files.
Proof. unfold class_target. case_decide; naive_solver. Qed.

Lemma class_target_None cls files name :
  class_target cls files name = None ↔ name ∉ files.
Proof. unfold class_target. case_decide; naive_solver. Qed.

Lemma main_outcome_refl target f :
  (∀ name cls nd, target name = Some cls →
     PyDict.get name (raw_dir f) = Some nd → False) →
  main_outcome target f f 0.
Proof.
  intros Hnone. unfold main_outcome. split_and!; try done.
  intros name cls nd Ht Hg. destruct (Hnone _ _ _ Ht Hg).
Qed.

Lemma staged_del raw name fname :
  NoDup (PyDict.keys raw) → name ≠ fname →
  staged (PyDict.del fname raw) name = staged raw name.
Proof.
  intros Hnd Hne. unfold staged. rewrite get_del by done.
  by rewrite decide_False.
Qed.

Lemma flat_staged raw name :
  flat raw → staged raw name = true → has_sep name = false.
Proof.
  intros Hflat [nd Hg]%staged_true. apply get_Some_elem in Hg.
  by apply (proj1 (Forall_forall _ _) Hflat) in Hg.
Qed.

Lemma tree_of_files_empty : tree_of_files ∅.
Proof. intros cls d Hd. by rewrite lookup_empty in Hd. Qed.

Lemma main_move_files_run cls files f moved :
  NoDup (PyDict.keys (raw_dir f)) →
  ∃ f' r,
    main_move_files cls files f moved = (f', r)
    ∧ ((∃ n, r = Ok (moved + n)
             ∧ main_outcome (class_target cls files) f f' n
             ∧ n ≤ length files
             ∧ ∀ name, name ∈ files → staged (raw_dir f) name = true →
                 has_sep name = false)
       ∨ (∃ name, r = Raise (FileNotFoundError name)
                  ∧ name ∈ files
                  ∧ staged (raw_dir f) name = true
                  ∧ (has_sep name = true ∨ base_dir f !! cls = None))).
Proof.
  revert f moved. induction files as [|fname rest IH]; intros f moved Hraw.
  { exists f, (Ok moved). split; [done|]. left. exists 0.
    rewrite Nat.add_0_r. split_and!; [done | | done |].
    - apply main_outcome_refl.
      intros name c nd [_ ?%elem_of_nil]%class_target_Some. done.
    - by intros name ?%elem_of_nil. }
  cbn [main_move_files].
  destruct (PyDict.get fname (raw_dir f)) as [nd|] eqn:Hg.
  - destruct (has_sep fname) eqn:Hsep.
    { exists f, (Raise (FileNotFoundError fname)). split; [done|]. right.
      exists fname. split_and!; [done | by left | | by left].
      apply staged_true. by rewrite Hg. }
    unfold shutil_move. rewrite Hg.
    destruct (base_dir f !! cls) as [d|] eqn:Hd.
    2:{ exists f, (Raise (FileNotFoundError fname)). split; [done|]. right.
        exists fname. split_and!; [done | by left | | by right].
        apply staged_true. by rewrite Hg. }
    set (f1 := {| raw_dir := PyDict.del fname (raw_dir f);
                  base_dir := <[cls := <[fname := nd]> d]> (base_dir f) |}).
    destruct (IH f1 (S moved)) as (f' & r & Hrun & Hres);
      [by apply NoDup_keys_del|].
    exists f', r. split; [done|].
    destruct Hres as [(n & -> & (Hlen & Hsub & Hdom & HA & HB) & Hn & Hflat)
                     |(name & -> & Hin & Hst & Hb)].
    2:{ right. exists name. cbn [raw_dir base_dir f1] in Hst, Hb.
        assert (name ≠ fname) as Hne.
        { intros ->. apply staged_true in Hst as [? Hst].
          rewrite get_del in Hst by done. by rewrite decide_True in Hst. }
        rewrite staged_del in Hst by done.
        split_and!; [done | by right | done |]. left.
        destruct Hb as [?|Hb]; [done|]. by rewrite lookup_insert_eq in Hb. }
    simpl in Hlen, Hsub, Hdom, HA, HB, Hflat.
    left. exists (S n). split_and!; [f_equal; lia | | simpl; lia |].
    2:{ intros name Hin Hst. destruct (decide (name = fname)) as [->|Hne];
          [done|]. apply Hflat.
        - by apply elem_of_cons in Hin as [?|?].
        - by rewrite staged_del. }
    unfold main_outcome. split_and!.
    + rewrite <- (length_del (raw_dir f) fname) by eauto. lia.
    + etrans; [done | apply del_sublist].
    + rewrite Hdom, dom_insert_L. apply elem_of_dom_2 in Hd. set_solver.
    + intros name c nd0 [-> Hin]%class_target_Some Hg0.
      destruct (decide (name = fname)) as [->|Hne].
      * assert (nd0 = nd) as -> by congruence.
        destruct (HB fname) as [Hr Ht].
        { right. rewrite get_del by done. by rewrite decide_True. }
        split_and!.
        -- rewrite Hr, get_del by done. by rewrite decide_True.
        -- rewrite Ht, tree_get_move by done. by rewrite decide_True.
        -- intros c Hc. rewrite Ht, tree_get_move by done.
           rewrite decide_False; [done|]. by intros [? _].
      * destruct (HA name cls nd0) as (Hr & Ht & Ho).
        { apply class_target_Some. split; [done|].
          by apply elem_of_cons in Hin as [?|?]. }
        { rewrite get_del by done. by rewrite decide_False. }
        split_and!; [done | done |].
        intros c Hc. rewrite Ho, tree_get_move by done.
        rewrite decide_False; [done|]. by intros [_ ?].
    + intros name Hname.
      assert (name ≠ fname) as Hne.
      { intros ->. destruct Hname as [Hx%class_target_None|Hx]; [|congruence].
        apply Hx. by left. }
      destruct (HB name) as [Hr Ht].
      { destruct Hname as [Hx%class_target_None|Hx].
        - left. apply class_target_None. intros ?. apply Hx. by right.
        - right. rewrite get_del by done. by rewrite decide_False. }
      split.
      * rewrite Hr, get_del by done. by rewrite decide_False.
      * intros c. rewrite Ht, tree_get_move by done.
        rewrite decide_False; [done|]. by intros [_ ?].
  - destruct (IH f moved Hraw) as (f' & r & Hrun & Hres).
    exists f', r. split; [done|].
    destruct Hres as [(n & -> & (Hlen & Hsub & Hdom & HA & HB) & Hn & Hflat)
                     |(name & -> & Hin & Hst & Hb)].
    2:{ right. exists name. split_and!; [done | by right | done | done]. }
    left. exists n. split_and!; [done | | simpl; lia |].
    2:{ intros name Hin Hst. apply elem_of_cons in Hin as [->|Hin].
        - apply staged_true in Hst as [? Hst]. congruence.
        - by apply Hflat. }
    unfold main_outcome. split_and!; try done.
    + intros name c nd0 [-> Hin]%class_target_Some Hg0.
      apply (HA name cls nd0); [|done]. apply class_target_Some.
      split; [done|]. apply elem_of_cons in Hin as [->|?]; [congruence | done].
    + intros name [Hx%class_target_None|Hx]; apply HB; [|by right].
      left. apply class_target_None. intros ?. apply Hx. by right.
Qed.

Lemma first_class_cons cls files rest name :
  first_class ((cls, files) :: rest) name
  = if decide (name ∈ files) then Some cls else first_class rest name.
Proof. done. Qed.

Lemma first_class_is_Some items name :
  is_Some (first_class items name) ↔ name ∈ all_files items.
Proof.
  induction items as [|[cls files] items IH].
  - split; [by intros [? ?] | by intros ?%elem_of_nil].
  - rewrite first_class_cons, all_files_cons, elem_of_app.
    case_decide; [split; eauto | rewrite IH; naive_solver].
Qed.

Lemma first_class_in_keys items name cls :
  first_class items name = Some cls → cls ∈ PyDict.keys items.
Proof.
  unfold PyDict.keys. induction items as [|[c files] items IH]; [done|].
  rewrite first_class_cons, fmap_cons. simpl.
  case_decide; [intros [= ->]; by left | intros ?; right; auto].
Qed.

Lemma main_move_classes_run items f moved :
  NoDup (PyDict.keys (raw_dir f)) →
  ∃ f' r,
    main_move_classes items f moved = (f', r)
    ∧ ((∃ n, r = Ok (moved + n)
             ∧ main_outcome (first_class items) f f' n
             ∧ n ≤ length (all_files items)
             ∧ ∀ name, name ∈ all_files items →
                 staged (raw_dir f) name = true → has_sep name = false)
       ∨ (∃ name cls, r = Raise (FileNotFoundError name)
                      ∧ first_class items name = Some cls
                      ∧ staged (raw_dir f) name = true
                      ∧ (has_sep name = true ∨ base_dir f !! cls = None))).
Proof.
  revert f moved. induction items as [|[cls files] rest IH]; intros f moved Hraw.
  { exists f, (Ok moved). split; [done|]. left. exists 0.
    rewrite Nat.add_0_r. split_and!; [done | | done |].
    - by apply main_outcome_refl.
    - by intros name ?%elem_of_nil. }
  cbn [main_move_classes].
  destruct (main_move_files_run cls files f moved Hraw) as (f1 & r1 & -> & Hres1).
  destruct Hres1 as [(n1 & -> & (Hlen1 & Hsub1 & Hdom1 & HA1 & HB1) & Hn1 & Hflat1)
                    |(name & -> & Hin & Hst & Hb)].
  2:{ exists f1, (Raise (FileNotFoundError name)). split; [done|]. right.
      exists name, cls. rewrite first_class_cons, decide_True by done. done. }
  assert (NoDup (PyDict.keys (raw_dir f1))) as Hraw1
    by (by eapply NoDup_keys_sublist).
  destruct (IH f1 (moved + n1) Hraw1) as (f' & r & Hrun & Hres).
  exists f', r. split; [done|].
  destruct Hres as [(n2 & -> & (Hlen2 & Hsub2 & Hdom2 & HA2 & HB2) & Hn2 & Hflat2)
                   |(name & c & -> & Hfc & Hst & Hb)].
  - left. exists (n1 + n2). split_and!.
    + f_equal. lia.
    + unfold main_outcome. split_and!.
      * lia.
      * by etrans.
      * by rewrite Hdom2.
      * intros name c nd Hfc Hg. rewrite first_class_cons in Hfc.
        destruct (decide (name ∈ files)) as [Hin|Hin].
        -- injection Hfc as <-.
           destruct (HA1 name cls nd) as (Hr1 & Ht1 & Ho1);
             [by apply class_target_Some | done |].
           destruct (HB2 name) as [Hr2 Ht2]; [by right|].
           split_and!; [congruence | by rewrite Ht2 |].
           intros c Hc. by rewrite Ht2, Ho1.
        -- destruct (HB1 name) as [Hr1 Ht1];
             [left; by apply class_target_None|].
           destruct (HA2 name c nd) as (Hr2 & Ht2 & Ho2); [done | congruence |].
           split_and!; [done | done |].
           intros c' Hc'. by rewrite Ho2, Ht1.
      * intros name Hname.
        destruct (HB1 name) as [Hr1 Ht1].
        { destruct Hname as [Hfc|Hg]; [|by right]. left.
          apply class_target_None. rewrite first_class_cons in Hfc.
          by case_decide. }
        destruct (HB2 name) as [Hr2 Ht2].
        { destruct Hname as [Hfc|Hg]; [|right; congruence]. left.
          rewrite first_class_cons in Hfc. by case_decide. }
        split; [congruence|]. intros c. by rewrite Ht2, Ht1.
    + rewrite all_files_cons, length_app. lia.
    + intros name Hin Hst. destruct (decide (name ∈ files)) as [Hf|Hf];
        [by apply Hflat1|].
      rewrite all_files_cons, elem_of_app in Hin.
      destruct Hin as [?|Hin]; [done|]. apply Hflat2; [done|].
      destruct (HB1 name) as [Hr1 _]; [left; by apply class_target_None|].
      unfold staged in *. by rewrite Hr1.
  - right. exists name, c.
    apply staged_true in Hst as [nd' Hg1].
    pose proof (get_sublist _ _ _ _ Hraw Hsub1 Hg1) as Hg.
    assert (name ∉ files) as Hnot.
    { intros Hin. destruct (HA1 name cls nd') as (Hr1 & _);
        [by apply class_target_Some | done | congruence]. }
    split_and!.
    + done.
    + by rewrite first_class_cons, decide_False.
    + apply staged_true. eauto.
    + destruct Hb as [?|Hb]; [by left | right].
      apply not_elem_of_dom. rewrite <- Hdom1. by apply not_elem_of_dom.
Qed.

Lemma main_move_classes_idle items f moved :
  (∀ name, name ∈ all_files items → PyDict.get name (raw_dir f) = None) →
  main_move_classes items f moved = (f, Ok moved).
Proof.
  induction items as [|[cls files] rest IH]; intros Hnone; [done|].
  cbn [main_move_classes].
  assert (main_move_files cls files f moved = (f, Ok moved)) as ->.
  { assert (∀ name, name ∈ files → PyDict.get name (raw_dir f) = None) as Hf.
    { intros name Hin. apply Hnone. rewrite all_files_cons, elem_of_app. by left. }
    clear Hnone IH. induction files as [|fname files IHf]; [done|].
    cbn [main_move_files]. rewrite (Hf fname) by (by left).
    apply IHf. intros name Hin. apply Hf. by right. }
  apply IH. intros name Hin. apply Hnone.
  rewrite all_files_cons, elem_of_app. by right.
Qed.

Lemma makedirs_desired_lookup l base c :
  is_Some (foldr makedirs base l !! c) ↔ c ∈ l ∨ is_Some (base !! c).
Proof.
  induction l as [|k l IH]; cbn [foldr].
  - split; [by right | by intros [?%elem_of_nil|?]].
  - rewrite makedirs_lookup, IH, elem_of_cons. tauto.
Qed.

Lemma makedirs_desired_tree_get l base c name :
  tree_get (foldr makedirs base l) c name = tree_get base c name.
Proof.
  induction l as [|k l IH]; cbn [foldr]; [done|].
  by rewrite makedirs_tree_get.
Qed.

Lemma makedirs_desired_id l base :
  (∀ c, c ∈ l → is_Some (base !! c)) → foldr makedirs base l = base.
Proof.
  induction l as [|k l IH]; intros Hall; cbn [foldr]; [done|].
  rewrite IH by (intros c Hc; apply Hall; by right).
  apply makedirs_id. apply Hall. by left.
Qed.

Lemma main_organize_run sampled f :
  NoDup (PyDict.keys (raw_dir f)) →
  ∃ base0 f' r,
    (∀ c, is_Some (base0 !! c)
          ↔ c ∈ DESIRED_CLASSES ∨ is_Some (base_dir f !! c))
    ∧ (∀ c name, tree_get base0 c name = tree_get (base_dir f) c name)
    ∧ main_organize sampled f = (f', r)
    ∧ ((∃ n, r = Ok n
             ∧ main_outcome (first_class sampled)
                 {| raw_dir := raw_dir f; base_dir := base0 |} f' n
             ∧ n ≤ length (all_files sampled)
             ∧ ∀ name, name ∈ all_files sampled →
                 staged (raw_dir f) name = true → has_sep name = false)
       ∨ (∃ name cls, r = Raise (FileNotFoundError name)
                      ∧ first_class sampled name = Some cls
                      ∧ staged (raw_dir f) name = true
                      ∧ (has_sep name = true
                         ∨ ((cls ∉ DESIRED_CLASSES)
                            ∧ base_dir f !! cls = None)))).
Proof.
  intros Hraw. unfold main_organize.
  assert (∀ c, is_Some (foldr makedirs (base_dir f)
                          (elements DESIRED_CLASSES) !! c)
               ↔ c ∈ DESIRED_CLASSES ∨ is_Some (base_dir f !! c)) as Hlk.
  { intros c. by rewrite makedirs_desired_lookup, elem_of_elements. }
  assert (∀ c name,
            tree_get (foldr makedirs (base_dir f) (elements DESIRED_CLASSES))
              c name = tree_get (base_dir f) c name) as Htg.
  { intros c name. apply makedirs_desired_tree_get. }
  revert Hlk Htg.
  generalize (foldr makedirs (base_dir f) (elements DESIRED_CLASSES)).
  intros base0 Hlk Htg.
  destruct (main_move_classes_run sampled
              {| raw_dir := raw_dir f; base_dir := base0 |} 0 Hraw)
    as (f' & r & Hrun & Hres).
  exists base0, f', r. split_and!; [done | done | done |].
  destruct Hres as [(n & -> & Hout & Hn & Hflat)
                   |(name & cls & -> & Hfc & Hst & Hb)].
  - left. exists n. split_and!; [done | exact Hout | exact Hn | exact Hflat].
  - right. exists name, cls. cbn [raw_dir base_dir] in Hst, Hb.
    split_and!; [done | exact Hfc | exact Hst |].
    destruct Hb as [Hs|Hb]; [by left | right].
    apply eq_None_not_Some in Hb. rewrite Hlk in Hb. split.
    + intros Hc. apply Hb. by left.
    + apply eq_None_not_Some. intros ?. apply Hb. by right.
Qed.

(** X11. When the manifest lists files, by relative paths and under
    directory names, and the tree holds files: if the destination of every
    staged file that the manifest lists is ready (its path has no directory
    part, its class is a desired class or has its directory), the organise
    step of [main] completes. It moves every staged entry whose path the
    manifest lists, whatever its size, into the first class that lists it,
    leaves every other entry where it is, and counts one move per entry
    taken out of the staging directory, at most one per manifest entry. *)
Theorem main_moves_listed_names (sampled_by_class : manifest) (f : fs) :
  moves_files sampled_by_class f →
  destinations_ready sampled_by_class f →
  ∃ f' n,
    main_organize sampled_by_class f = (f', Ok n)
    ∧ n ≤ length (all_files sampled_by_class)
    ∧ length (raw_dir f) = n + length (raw_dir f')
    ∧ (∀ name cls nd,
         first_class sampled_by_class name = Some cls →
         PyDict.get name (raw_dir f) = Some nd →
         PyDict.get name (raw_dir f') = None
         ∧ tree_get (base_dir f') cls name = Some nd)
    ∧ (∀ name,
         first_class sampled_by_class name = None →
         PyDict.get name (raw_dir f') = PyDict.get name (raw_dir f)
         ∧ ∀ c, tree_get (base_dir f') c name = tree_get (base_dir f) c name).
Proof.
  intros (_ & Hraw & _) Hready.
  destruct (main_organize_run sampled_by_class f Hraw)
    as (base0 & f' & r & Hlk & Htg & Hrun & Hres).
  destruct Hres as [(n & -> & (Hlen & Hsub & Hdom & HA & HB) & Hn & _)
                   |(name & cls & _ & Hfc & Hst & Hb)].
  2:{ destruct (Hready name cls Hfc Hst) as [Hs Hd].
      destruct Hb as [?|[Hc Hb]]; [congruence|].
      destruct Hd as [?|[? ?]]; [done | congruence]. }
  cbn [raw_dir base_dir] in Hlen, HA, HB. exists f', n.
  split_and!; [exact Hrun | exact Hn | exact Hlen | |].
  - intros name cls nd Hfc Hg.
    destruct (HA name cls nd Hfc Hg) as (Hr & Ht & _). by split.
  - intros name Hfc. destruct (HB name) as [Hr Ht]; [by left|].
    split; [exact Hr|]. intros c. by rewrite Ht, Htg.
Qed.

Lemma main_moves_listed_names_witness :
  ∃ f' n,
    main_organize zero_byte_manifest zero_byte_fs = (f', Ok n)
    ∧ n ≤ length (all_files zero_byte_manifest)
    ∧ length (raw_dir zero_byte_fs) = n + length (raw_dir f')
    ∧ (∀ name cls nd,
         first_class zero_byte_manifest name = Some cls →
         PyDict.get name (raw_dir zero_byte_fs) = Some nd →
         PyDict.get name (raw_dir f') = None
         ∧ tree_get (base_dir f') cls name = Some nd)
    ∧ (∀ name,
         first_class zero_byte_manifest name = None →
         PyDict.get name (raw_dir f') = PyDict.get name (raw_dir zero_byte_fs)
         ∧ ∀ c, tree_get (base_dir f') c name
                = tree_get (base_dir zero_byte_fs) c name).
Proof.
  apply (main_moves_listed_names zero_byte_manifest zero_byte_fs).
  - split_and!; [repeat constructor | vm_compute; apply NoDup_singleton
                | repeat constructor | repeat constructor
                | exact tree_of_files_empty].
  - intros name cls Hfc _.
    unfold zero_byte_manifest in Hfc. rewrite first_class_cons in Hfc.
    case_decide as Hin; [|done]. injection Hfc as <-.
    apply list_elem_of_singleton in Hin as ->.
    split; [reflexivity | left; set_solver].
Defined.



(** X13. The organise step of [main] is idempotent: after a run that
    completed, every listed name has left the staging directory, and a
    second run moves nothing and changes nothing. *)
Theorem main_step_idempotent (sampled_by_class : manifest) (f f1 : fs)
    (n1 : nat) :
  NoDup (PyDict.keys (raw_dir f)) →
  main_organize sampled_by_class f = (f1, Ok n1) →
  (∀ name, name ∈ all_files sampled_by_class →
     PyDict.get name (raw_dir f1) = None)
  ∧ main_organize sampled_by_class f1 = (f1, Ok 0).
Proof.
  intros Hraw Hrun.
  destruct (main_organize_run sampled_by_class f Hraw)
    as (base0 & f' & r & Hlk & Htg & Hrun' & Hres).
  rewrite Hrun in Hrun'. injection Hrun' as <- <-.
  destruct Hres as [(n & Hn1 & (Hlen & Hsub & Hdom & HA & HB) & Hn & _)
                   |(name & cls & [=] & _)].
  cbn [raw_dir base_dir] in HA, HB, Hdom.
  assert (∀ name, name ∈ all_files sampled_by_class →
            PyDict.get name (raw_dir f1) = None) as Hgone.
  { intros name [cls Hfc]%first_class_is_Some.
    destruct (PyDict.get name (raw_dir f)) as [nd|] eqn:Hg.
    - by destruct (HA name cls nd Hfc Hg) as (? & _).
    - destruct (HB name) as [Hr _]; [by right | congruence]. }
  split; [exact Hgone|]. unfold main_organize.
  rewrite makedirs_desired_id.
  - rewrite main_move_classes_idle; [by destruct f1 | exact Hgone].
  - intros c Hc%elem_of_elements. apply elem_of_dom. rewrite Hdom.
    apply elem_of_dom. apply Hlk. by left.
Qed.

Lemma main_step_idempotent_witness :
  (∀ name, name ∈ all_files zero_byte_manifest →
     PyDict.get name (raw_dir (main_organize zero_byte_manifest zero_byte_fs).1)
     = None)
  ∧ main_organize zero_byte_manifest
      (main_organize zero_byte_manifest zero_byte_fs).1
    = ((main_organize zero_byte_manifest zero_byte_fs).1, Ok 0).
Proof.
  apply (main_step_idempotent zero_byte_manifest zero_byte_fs
           (main_organize zero_byte_manifest zero_byte_fs).1 1).
  - vm_compute. apply NoDup_singleton.
  - vm_compute. reflexivity.
Defined.

Lemma main_organize_computed {G : Type} (seed : Z → G)
    (randbelow : G → nat → nat * G) (data : metadata) (w w' : world G)
    (m : manifest) (f : fs) :
  (∀ g n, 0 < n → (randbelow g n).1 < n) →
  sample_file w = None →
  get_sampled_files seed randbelow data w = Ok (m, w') →
  NoDup (PyDict.keys (raw_dir f)) →
  flat (raw_dir f) →
  ∃ f' n, main_organize m f = (f', Ok n)
          ∧ n ≤ length (all_files m)
          ∧ length (raw_dir f) = n + length (raw_dir f')
          ∧ ((∀ name, name ∈ all_files m → has_sep name = true) →
             n = 0 ∧ raw_dir f' = raw_dir f).
Proof.
  intros Hlt Hw Hrun Hraw Hflat.
  destruct (main_organize_run m f Hraw)
    as (base0 & f' & r & Hlk & Htg & Hrun' & Hres).
  destruct Hres as [(n & -> & (Hlen & _) & Hn & _)
                   |(name & cls & _ & Hfc & Hst & [Hs|[Hc _]])].
  - exists f', n. split_and!; [exact Hrun' | exact Hn | exact Hlen |].
    intros Hall. unfold main_organize in Hrun'.
    rewrite main_move_classes_idle in Hrun'.
    + injection Hrun' as <- <-. split; reflexivity.
    + intros name Hin. cbn [raw_dir].
      destruct (PyDict.get name (raw_dir f)) as [nd|] eqn:Hg; [|done].
      assert (has_sep name = false) as Hs.
      { apply (flat_staged (raw_dir f)); [done|]. apply staged_true. eauto. }
      rewrite (Hall name Hin) in Hs. discriminate Hs.
  - rewrite (flat_staged _ _ Hflat Hst) in Hs. discriminate Hs.
  - destruct Hc.
    destruct (file_to_class data) as [ftc|] eqn:Hftc.
    2:{ unfold get_sampled_files in Hrun. by rewrite Hw, Hftc in Hrun. }
    apply first_class_in_keys in Hfc.
    destruct (PyDict.get cls m) as [l|] eqn:Hget.
    + by destruct (computed_manifest_entry _ _ _ _ _ _ _ _ _ Hlt Hw Hrun Hftc Hget)
        as (? & _).
    + by apply get_None in Hget.
Qed.



(** ** The two indexes of the reconciler *)

Lemma foldl_insert_notin {A V} (key : A → string) (val : A → V)
    (l : list A) (m : gmap string V) (k : string) :
  k ∉ key <$> l →
  foldl (λ m a, <[key a := val a]> m) m l !! k = m !! k.
Proof.
  revert m. induction l as [|a l IH]; intros m Hk; cbn [foldl]; [done|].
  rewrite fmap_cons, not_elem_of_cons in Hk. destruct Hk as [Hne Hk].
  rewrite IH by done. by rewrite lookup_insert_ne.
Qed.

Lemma foldl_insert_size {A V} (key : A → string) (val : A → V)
    (l : list A) (m : gmap string V) :
  size (foldl (λ m a, <[key a := val a]> m) m l) ≤ size m + length l.
Proof.
  revert m. induction l as [|a l IH]; intros m; cbn [foldl length]; [lia|].
  etrans; [apply IH|]. rewrite map_size_insert.
  destruct (m !! key a); simpl; lia.
Qed.

Lemma entries_cons cls paths m :
  entries ((cls, paths) :: m) = ((λ p, (p, cls)) <$> paths) ++ entries m.
Proof. done. Qed.

Lemma expected_files_entries m :
  expected_files m
  = foldl (λ exp e, <[lower (basename e.1) := (e.1, e.2)]> exp) ∅ (entries m).
Proof.
  rewrite expected_files_fold.
  generalize (∅ : gmap string (string * string)).
  induction m as [|[cls paths] m IH]; intros exp; [done|].
  rewrite entries_cons, foldl_app. cbn [foldl expect_class]. rewrite IH.
  f_equal. clear IH. revert exp.
  induction paths as [|p paths IHp]; intros exp; [done|].
  cbn [foldl fmap list_fmap]. by rewrite IHp.
Qed.

Lemma length_entries m : length (entries m) = length (all_files m).
Proof.
  induction m as [|[cls paths] m IH]; [done|].
  by rewrite entries_cons, all_files_cons, !length_app, length_fmap, IH.
Qed.

Lemma basename_idem p : basename (basename p) = basename p.
Proof.
  unfold basename at 1. apply basename_from_plain. unfold basename.
  rewrite has_sep_basename_from. by destruct (has_sep p).
Qed.

Lemma entries_base_names m :
  entries (base_names m) = (λ e, (basename e.1, e.2)) <$> entries m.
Proof.
  induction m as [|[cls paths] m IH]; [done|].
  unfold base_names in *. rewrite fmap_cons, !entries_cons, fmap_app, IH.
  f_equal. cbn [fst snd]. rewrite <- !list_fmap_compose. by apply list_fmap_ext.
Qed.

Lemma expected_files_base_names m :
  expected_files (base_names m)
  = (λ v, (basename v.1, v.2)) <$> expected_files m.
Proof.
  rewrite !expected_files_entries, entries_base_names.
  assert (∀ l (exp : gmap string (string * string)),
            foldl (λ exp e, <[lower (basename e.1) := (e.1, e.2)]> exp)
              ((λ v, (basename v.1, v.2)) <$> exp)
              ((λ e, (basename e.1, e.2)) <$> l)
            = (λ v, (basename v.1, v.2))
                <$> foldl (λ exp e, <[lower (basename e.1) := (e.1, e.2)]> exp)
                      exp l) as Hfold.
  { induction l as [|[p c] l IH]; intros exp; [done|].
    cbn [fmap list_fmap foldl fst snd].
    rewrite basename_idem, <- IH. by rewrite fmap_insert. }
  by rewrite <- Hfold, fmap_empty.
Qed.

Lemma move_loop_classes exp exp' items f n :
  (∀ key, snd <$> exp' !! key = snd <$> exp !! key) →
  move_loop exp' items f n = move_loop exp items f n.
Proof.
  intros Hcls. revert f n.
  induction items as [|[lower_name real_name] items IH]; intros f n; [done|].
  cbn [move_loop]. specialize (Hcls lower_name).
  destruct (exp' !! lower_name) as [[p' c']|],
           (exp !! lower_name) as [[p c]|]; simplify_eq/=; [|done].
  destruct (PyDict.get real_name (raw_dir f)) as [nd|]; [|done].
  destruct (0 <? st_size nd)%N; [|done].
  destruct (shutil_move real_name c f); [done | done].
Qed.

(** X7. The reconciler looks at the last component of a manifest path
    only: the key under which a path is expected is made from its base
    name, so that the manifest in which every path is cut down to its base
    name makes the same directories, moves the same files and ends with the
    same report or the same error as the manifest itself. *)
Theorem reconciler_ignores_directories (m : manifest) (f : fs) :
  (∀ key, snd <$> expected_files (base_names m) !! key
          = snd <$> expected_files m !! key)
  ∧ size (expected_files (base_names m)) = size (expected_files m)
  ∧ organize_files (base_names m) f = organize_files m f
  ∧ organize_unsw (Some (base_names m)) f = organize_unsw (Some m) f.
Proof.
  assert (∀ key, snd <$> expected_files (base_names m) !! key
                 = snd <$> expected_files m !! key) as Hcls.
  { intros key. rewrite expected_files_base_names, lookup_fmap.
    by destruct (expected_files m !! key). }
  assert (size (expected_files (base_names m)) = size (expected_files m))
    as Hsize.
  { by rewrite expected_files_base_names, map_size_fmap. }
  assert (organize_files (base_names m) f = organize_files m f) as Hrun.
  { unfold organize_files.
    assert (PyDict.keys (base_names m) = PyDict.keys m) as ->.
    { unfold PyDict.keys, base_names. rewrite <- list_fmap_compose.
      by apply list_fmap_ext. }
    by apply move_loop_classes. }
  split_and!; [done | done | done |].
  unfold organize_unsw. rewrite Hrun.
  destruct (organize_files m f) as [f' [n|e]]; [|done].
  cbn [mbind result_bind rbind]. unfold final_stats. by rewrite Hsize.
Qed.

(** X15. In the expected index the last manifest entry of a key wins, in
    the order class by class and then along each list: the key of a path
    maps to that path and its class when no later entry has the same lowered
    base name; and the index has at most one key per manifest entry. *)
Theorem expected_last_entry_wins (m : manifest)
    (pre post : list (string * string)) (p cls : string) :
  entries m = pre ++ (p, cls) :: post →
  Forall (λ e, lower (basename e.1) ≠ lower (basename p)) post →
  expected_files m !! lower (basename p) = Some (p, cls)
  ∧ size (expected_files m) ≤ length (all_files m).
Proof.
  intros Hm Hpost. rewrite expected_files_entries. split.
  - rewrite Hm, foldl_app. cbn [foldl].
    rewrite (foldl_insert_notin (λ e, lower (basename e.1)) (λ e, (e.1, e.2))).
    + by rewrite lookup_insert_eq.
    + intros [e [He Hin]]%list_elem_of_fmap.
      rewrite Forall_forall in Hpost. by apply (Hpost e).
  - rewrite <- length_entries.
    etrans; [apply (foldl_insert_size (λ e, lower (basename e.1))
                      (λ e, (e.1, e.2)))|].
    by rewrite map_size_empty.
Qed.

Lemma expected_last_entry_wins_witness :
  expected_files clash_manifest !! lower (basename "q/A.JPG")
  = Some ("q/A.JPG", "dingo")
  ∧ size (expected_files clash_manifest) ≤ length (all_files clash_manifest).
Proof.
  apply (expected_last_entry_wins clash_manifest
           [ ("some/path/fox_001.jpg", "fox"); ("p/a.jpg", "fox");
             ("z.jpg", "fox") ] []).
  - reflexivity.
  - constructor.
Defined.

Lemma scan_get_notin raw acc lo :
  Forall (λ e, is_file e.2 = true → lower e.1 ≠ lo) raw →
  PyDict.get lo (foldl scan_step acc raw) = PyDict.get lo acc.
Proof.
  revert acc. induction raw as [|[name nd] raw IH]; intros acc Hraw; [done|].
  apply Forall_cons in Hraw as [Hhd Hraw]. cbn [foldl]. rewrite IH by done.
  unfold scan_step. destruct (is_file nd) eqn:Hf; [|done].
  apply get_set_ne. intros ->. by apply Hhd.
Qed.

Lemma scan_length raw acc :
  length (foldl scan_step acc raw) ≤ length acc + length raw.
Proof.
  revert acc. induction raw as [|[name nd] raw IH]; intros acc;
    cbn [foldl length]; [lia|].
  etrans; [apply IH|]. unfold scan_step.
  destruct (is_file nd); [|lia].
  assert (length (PyDict.set (lower name) name acc) ≤ S (length acc)); [|lia].
  clear. induction acc as [|[k v] acc IH]; simpl; [lia|].
  case_decide; simpl; lia.
Qed.

(** X16. In the scan of the staging directory the last regular file of a
    lowered name wins: the name maps to the file after which no regular
    file with the same name ignoring case is listed; entries that are not
    regular files are not indexed at all, and every indexed name is the
    lowered name of a staged regular file. *)
Theorem actual_last_file_wins (pre post : list (string * node))
    (name : string) (nd : node) :
  is_file nd = true →
  Forall (λ e, is_file e.2 = true → lower e.1 ≠ lower name) post →
  PyDict.get (lower name) (actual_files (pre ++ (name, nd) :: post))
  = Some name
  ∧ length (actual_files (pre ++ (name, nd) :: post))
    ≤ length (pre ++ (name, nd) :: post)
  ∧ ∀ lo real,
      (lo, real) ∈ actual_files (pre ++ (name, nd) :: post) →
      lo = lower real
      ∧ ∃ nd', (real, nd') ∈ pre ++ (name, nd) :: post ∧ is_file nd' = true.
Proof.
  intros Hf Hpost. split_and!.
  - rewrite actual_files_fold, foldl_app. cbn [foldl].
    rewrite scan_get_notin by done. unfold scan_step.
    rewrite Hf. apply get_set_eq.
  - rewrite actual_files_fold.
    etrans; [apply scan_length|]. simpl. lia.
  - intros lo real. apply actual_files_elem.
Qed.

Lemma actual_last_file_wins_witness :
  PyDict.get (lower "z.JPG")
    (actual_files ([ ("Fox_001.JPG", regular 0); ("a.jpg", regular 5);
                     ("Z.jpg", regular 3) ] ++ ("z.JPG", regular 4) :: []))
  = Some "z.JPG"
  ∧ length (actual_files ([ ("Fox_001.JPG", regular 0); ("a.jpg", regular 5);
                            ("Z.jpg", regular 3) ] ++ ("z.JPG", regular 4) :: []))
    ≤ length ([ ("Fox_001.JPG", regular 0); ("a.jpg", regular 5);
                ("Z.jpg", regular 3) ] ++ ("z.JPG", regular 4) :: [])
  ∧ ∀ lo real,
      (lo, real) ∈ actual_files
                     ([ ("Fox_001.JPG", regular 0); ("a.jpg", regular 5);
                        ("Z.jpg", regular 3) ] ++ ("z.JPG", regular 4) :: []) →
      lo = lower real
      ∧ ∃ nd', (real, nd') ∈ [ ("Fox_001.JPG", regular 0); ("a.jpg", regular 5);
                               ("Z.jpg", regular 3) ] ++ ("z.JPG", regular 4) :: []
               ∧ is_file nd' = true.
Proof.
  apply (actual_last_file_wins
           [ ("Fox_001.JPG", regular 0); ("a.jpg", regular 5);
             ("Z.jpg", regular 3) ] [] "z.JPG" (regular 4)).
  - reflexivity.
  - constructor.
Defined.

(** ** What the reconciler moves and what it leaves *)

Lemma moved_by_cases exp raw name nd :
  NoDup (PyDict.keys raw) →
  PyDict.get name raw = Some nd →
  (∃ cls, moved_by exp (actual_files raw) raw name cls nd
          ∧ is_file nd = true)
  ∨ (∀ cls nd', ¬ moved_by exp (actual_files raw) raw name cls nd').
Proof.
  intros Hraw Hg.
  assert (∀ cls nd', moved_by exp (actual_files raw) raw name cls nd' →
            PyDict.get (lower name) (actual_files raw) = Some name
            ∧ is_Some (exp !! lower name) ∧ (0 < st_size nd)%N) as Hnec.
  { intros cls nd' (lo & p & Hin & He & Hg' & Hs).
    destruct (actual_files_elem _ _ _ Hin) as [-> _].
    split_and!; [|eauto|congruence].
    apply elem_get_Some; [apply actual_files_keys | done]. }
  destruct (PyDict.get (lower name) (actual_files raw)) as [real|] eqn:Ha.
  2:{ right. intros cls nd' Hm. by destruct (Hnec _ _ Hm) as ([=] & _). }
  destruct (decide (real = name)) as [->|Hne].
  2:{ right. intros cls nd' Hm. destruct (Hnec _ _ Hm) as ([= ?] & _). done. }
  destruct (exp !! lower name) as [[p c]|] eqn:He.
  2:{ right. intros cls nd' Hm. by destruct (Hnec _ _ Hm) as (_ & [? [=]] & _). }
  destruct (decide (0 < st_size nd)%N) as [Hs|Hs].
  2:{ right. intros cls nd' Hm. by destruct (Hnec _ _ Hm) as (_ & _ & ?). }
  left. exists c. apply get_Some_elem in Ha. split.
  - exists (lower name), p. by split_and!.
  - destruct (actual_files_elem _ _ _ Ha) as (_ & nd' & Hin & Hf).
    apply (elem_get_Some _ _ _ Hraw) in Hin. congruence.
Qed.

(** X17. The reconciler loses nothing and invents nothing: after a run an
    entry that was staged is either still staged, unchanged, with the tree
    untouched at its name, or it is a non-empty regular file that is now in
    the tree under one class and no longer staged; and at a name that was
    not staged the tree is as it was. *)
Theorem reconciler_conserves_files (m : manifest) (f : fs) :
  NoDup (PyDict.keys (raw_dir f)) →
  ∃ f' n,
    organize_files m f = (f', Ok n)
    ∧ (∀ name nd, PyDict.get name (raw_dir f) = Some nd →
         (PyDict.get name (raw_dir f') = Some nd
          ∧ ∀ cls, tree_get (base_dir f') cls name
                   = tree_get (base_dir f) cls name)
         ∨ (PyDict.get name (raw_dir f') = None
            ∧ is_file nd = true ∧ (0 < st_size nd)%N
            ∧ ∃ cls, tree_get (base_dir f') cls name = Some nd))
    ∧ (∀ name, PyDict.get name (raw_dir f) = None →
         PyDict.get name (raw_dir f') = None
         ∧ ∀ cls, tree_get (base_dir f') cls name
                  = tree_get (base_dir f) cls name).
Proof.
  intros Hraw.
  destruct (organize_files_spec m f Hraw)
    as (f' & n & Hrun & _ & _ & _ & _ & Hkeep & Hgone).
  cbn [raw_dir base_dir] in Hkeep, Hgone.
  exists f', n. split_and!; [exact Hrun | |].
  - intros name nd Hg.
    destruct (moved_by_cases (expected_files m) (raw_dir f) name nd Hraw Hg)
      as [(cls & Hm & Hf)|Hno].
    + right. destruct (Hgone name cls nd Hm) as [Hr Ht].
      destruct Hm as (_ & _ & _ & _ & _ & Hs). split_and!; eauto.
    + left. destruct (Hkeep name Hno) as [Hr Ht]. split; [congruence|].
      intros cls. by rewrite Ht, makedirs_all_tree_get.
  - intros name Hg. destruct (Hkeep name) as [Hr Ht].
    { intros cls nd (_ & _ & _ & _ & Hg' & _). congruence. }
    split; [congruence|]. intros cls. by rewrite Ht, makedirs_all_tree_get.
Qed.

Lemma reconciler_conserves_files_witness :
  ∃ f' n,
    organize_files example_manifest example_fs = (f', Ok n)
    ∧ (∀ name nd, PyDict.get name (raw_dir example_fs) = Some nd →
         (PyDict.get name (raw_dir f') = Some nd
          ∧ ∀ cls, tree_get (base_dir f') cls name
                   = tree_get (base_dir example_fs) cls name)
         ∨ (PyDict.get name (raw_dir f') = None
            ∧ is_file nd = true ∧ (0 < st_size nd)%N
            ∧ ∃ cls, tree_get (base_dir f') cls name = Some nd))
    ∧ (∀ name, PyDict.get name (raw_dir example_fs) = None →
         PyDict.get name (raw_dir f') = None
         ∧ ∀ cls, tree_get (base_dir f') cls name
                  = tree_get (base_dir example_fs) cls name).
Proof.
  apply (reconciler_conserves_files example_manifest example_fs).
  vm_compute. repeat constructor; set_solver.
Defined.

(** X18. The reconciler leaves in place every staged entry that is not a
    regular file, and every staged entry whose name is, ignoring case, the
    base name of no manifest entry; it puts nothing of that name in the
    tree. *)
Theorem reconciler_leaves_other_entries (m : manifest) (f : fs)
    (name : string) (nd : node) :
  NoDup (PyDict.keys (raw_dir f)) →
  PyDict.get name (raw_dir f) = Some nd →
  is_file nd = false
  ∨ (∀ cls paths p, (cls, paths) ∈ m → p ∈ paths →
       lower (basename p) ≠ lower name) →
  ∃ f' n,
    organize_files m f = (f', Ok n)
    ∧ PyDict.get name (raw_dir f') = Some nd
    ∧ ∀ cls, tree_get (base_dir f') cls name = tree_get (base_dir f) cls name.
Proof.
  intros Hraw Hg Hother.
  destruct (organize_files_spec m f Hraw)
    as (f' & n & Hrun & _ & _ & _ & _ & Hkeep & _).
  cbn [raw_dir base_dir] in Hkeep.
  destruct (Hkeep name) as [Hr Ht].
  { intros cls nd' (lo & p & Hin & He & Hg' & Hs).
    destruct (actual_files_elem _ _ _ Hin) as (-> & nd'' & Hin' & Hf).
    apply (elem_get_Some _ _ _ Hraw) in Hin'.
    destruct Hother as [Hnf|Hnone]; [congruence|].
    destruct (expected_files_elem _ _ _ _ He) as (Hkey & paths & Hc & Hp).
    by apply (Hnone cls paths p). }
  exists f', n. split_and!; [exact Hrun | congruence |].
  intros cls. by rewrite Ht, makedirs_all_tree_get.
Qed.

Lemma reconciler_leaves_other_entries_witness :
  ∃ f' n,
    organize_files example_manifest
      {| raw_dir := [ ("a.jpg", regular 10);
                      ("notes", {| is_file := false; st_size := 4096 |}) ];
         base_dir := ∅ |} = (f', Ok n)
    ∧ PyDict.get "notes" (raw_dir f')
      = Some {| is_file := false; st_size := 4096 |}
    ∧ ∀ cls, tree_get (base_dir f') cls "notes"
             = tree_get (∅ : gmap string (gmap string node)) cls "notes".
Proof.
  apply (reconciler_leaves_other_entries example_manifest
           {| raw_dir := [ ("a.jpg", regular 10);
                           ("notes", {| is_file := false; st_size := 4096 |}) ];
              base_dir := ∅ |} "notes"
           {| is_file := false; st_size := 4096 |}).
  - vm_compute. repeat constructor; set_solver.
  - reflexivity.
  - left. reflexivity.
Defined.

(** X19. After a run of the reconciler every class of the manifest has its
    directory, whether or not a file was moved into it, and the tree has no
    other new directory. *)
Theorem reconciler_makes_class_dirs (m : manifest) (f : fs) :
  NoDup (PyDict.keys (raw_dir f)) →
  ∃ f' n,
    organize_files m f = (f', Ok n)
    ∧ ∀ cls, is_Some (base_dir f' !! cls)
             ↔ cls ∈ PyDict.keys m ∨ is_Some (base_dir f !! cls).
Proof.
  intros Hraw.
  destruct (organize_files_spec m f Hraw)
    as (f' & n & Hrun & _ & _ & _ & Hdom & _).
  cbn [raw_dir base_dir] in Hdom.
  exists f', n. split; [exact Hrun|]. intros cls.
  rewrite <- makedirs_all_lookup, <- !elem_of_dom. by rewrite Hdom.
Qed.

Lemma reconciler_makes_class_dirs_witness :
  ∃ f' n,
    organize_files example_manifest example_fs = (f', Ok n)
    ∧ ∀ cls, is_Some (base_dir f' !! cls)
             ↔ cls ∈ PyDict.keys example_manifest
               ∨ is_Some (base_dir example_fs !! cls).
Proof.
  apply (reconciler_makes_class_dirs example_manifest example_fs).
  vm_compute. repeat constructor; set_solver.
Defined.

(** ** The count and the report *)

Lemma filter_ext_elem {A} (P Q : A → Prop) `{!∀ x, Decision (P x)}
    `{!∀ x, Decision (Q x)} (l : list A) :
  (∀ x, x ∈ l → (P x ↔ Q x)) → filter P l = filter Q l.
Proof.
  induction l as [|a l IH]; intros Hext; [done|].
  rewrite !filter_cons.
  assert (P a ↔ Q a) as Ha by (apply Hext; by left).
  rewrite IH by (intros x Hx; apply Hext; by right).
  destruct (decide (P a)), (decide (Q a)); tauto.
Qed.

Lemma move_loop_count exp items f moved :
  NoDup (PyDict.keys (raw_dir f)) →
  NoDup (items.*2) →
  dirs_ready exp (base_dir f) →
  (move_loop exp items f moved).2
  = Ok (moved + length (filter (λ it, movable exp (raw_dir f) it = true) items)).
Proof.
  revert f moved. induction items as [|[lo0 name0] rest IH];
    intros f moved Hraw Hitems Hdirs.
  { simpl. by rewrite Nat.add_0_r. }
  apply NoDup_cons in Hitems as [Hhd Hrest].
  cbn [move_loop]. rewrite filter_cons.
  destruct (decide (movable exp (raw_dir f) (lo0, name0) = true)) as [Hmv|Hmv];
    unfold movable in Hmv; cbn [fst snd] in Hmv.
  2:{ destruct (exp !! lo0) as [[p0 cls0]|]; [|by apply IH].
      destruct (PyDict.get name0 (raw_dir f)) as [nd0|]; [|by apply IH].
      destruct (0 <? st_size nd0)%N; [done | by apply IH]. }
  destruct (exp !! lo0) as [[p0 cls0]|] eqn:He0; [|done].
  destruct (PyDict.get name0 (raw_dir f)) as [nd0|] eqn:Hg0; [|done].
  rewrite Hmv. destruct (Hdirs _ _ _ He0) as [d Hd].
  unfold shutil_move. rewrite Hg0, Hd.
  rewrite IH; cbn [raw_dir base_dir].
  - cbn [length]. f_equal. rewrite <- Nat.add_succ_comm. f_equal. f_equal.
    apply filter_ext_elem. intros [lo real] Hin. unfold movable. cbn [fst snd].
    rewrite get_del by done. rewrite decide_False; [done|].
    intros ->. apply Hhd. apply list_elem_of_fmap. by exists (lo, name0).
  - by apply NoDup_keys_del.
  - done.
  - intros key p c Hk. destruct (Hdirs _ _ _ Hk) as [d' Hd'].
    destruct (decide (c = cls0)) as [->|]; [rewrite lookup_insert_eq; eauto|].
    rewrite lookup_insert_ne by done. eauto.
Qed.

(** X20. The number of moves of a run of the reconciler is the number of
    lowered names of the scan that are keys of the expected index and whose
    file, looked up in the staging directory as it is before the run, is
    there and not empty: moving some files does not change the fate of the
    others. *)
Theorem moved_count_exact (m : manifest) (f : fs) :
  NoDup (PyDict.keys (raw_dir f)) →
  (organize_files m f).2
  = Ok (length (filter (λ it, movable (expected_files m) (raw_dir f) it = true)
                       (actual_files (raw_dir f)))).
Proof.
  intros Hraw. unfold organize_files.
  rewrite move_loop_count; [done | done | apply actual_files_names |].
  apply dirs_ready_makedirs.
Qed.

Lemma moved_count_exact_witness :
  (organize_files example_manifest example_fs).2
  = Ok (length (filter (λ it, movable (expected_files example_manifest)
                                (raw_dir example_fs) it = true)
                       (actual_files (raw_dir example_fs)))).
Proof.
  apply (moved_count_exact example_manifest example_fs).
  vm_compute. repeat constructor; set_solver.
Defined.

(** X21. The script of the reconciler ends in one of two ways: with a
    division by zero when the expected index is empty (a manifest without
    any file name), and otherwise with a report in which moved and missing
    add up to the size of the index, neither is negative, and the coverage
    is between 0 and 100. No move fails, since the class directories are
    made first. *)
Theorem organize_unsw_outcome (m : manifest) (f : fs) :
  NoDup (PyDict.keys (raw_dir f)) →
  ∃ f' n,
    organize_files m f = (f', Ok n)
    ∧ (size (expected_files m) = 0 →
         organize_unsw (Some m) f = (f', Raise ZeroDivisionError) ∧ n = 0)
    ∧ (size (expected_files m) ≠ 0 →
         ∃ rep, organize_unsw (Some m) f = (f', Ok rep)
                ∧ moved rep = Z.of_nat n
                ∧ (moved rep + missing rep
                   = Z.of_nat (size (expected_files m)))%Z
                ∧ (0 ≤ moved rep)%Z ∧ (0 ≤ missing rep)%Z
                ∧ Qle (inject_Z 0) (coveragePct rep)
                ∧ Qle (coveragePct rep) (inject_Z 100)).
Proof.
  intros Hraw.
  destruct (organize_files_spec m f Hraw)
    as (f' & n & Hrun & _ & _ & Hn & _).
  pose proof (expected_items_bound (expected_files m)
                (actual_files (raw_dir f)) (actual_files_keys _)) as Hb.
  exists f', n. split_and!; [exact Hrun | |].
  - intros Hz. split; [|lia]. unfold organize_unsw. rewrite Hrun.
    cbn [mbind result_bind rbind]. unfold final_stats, truediv.
    rewrite decide_True by lia. done.
  - intros Hnz. unfold organize_unsw. rewrite Hrun.
    cbn [mbind result_bind rbind]. rewrite final_stats_nonempty by done.
    eexists. split; [done|]. cbn [moved missing coveragePct].
    split_and!; try lia.
    + apply Qle_shift_div_l; [unfold Qlt; simpl; lia|].
      unfold Qle. simpl. lia.
    + apply Qle_shift_div_r; [unfold Qlt; simpl; lia|].
      unfold Qle. simpl. lia.
Qed.

Lemma organize_unsw_outcome_witness :
  ∃ f' n,
    organize_files example_manifest example_fs = (f', Ok n)
    ∧ (size (expected_files example_manifest) = 0 →
         organize_unsw (Some example_manifest) example_fs
         = (f', Raise ZeroDivisionError) ∧ n = 0)
    ∧ (size (expected_files example_manifest) ≠ 0 →
         ∃ rep, organize_unsw (Some example_manifest) example_fs = (f', Ok rep)
                ∧ moved rep = Z.of_nat n
                ∧ (moved rep + missing rep
                   = Z.of_nat (size (expected_files example_manifest)))%Z
                ∧ (0 ≤ moved rep)%Z ∧ (0 ≤ missing rep)%Z
                ∧ Qle (inject_Z 0) (coveragePct rep)
                ∧ Qle (coveragePct rep) (inject_Z 100)).
Proof.
  apply (organize_unsw_outcome example_manifest example_fs).
  vm_compute. repeat constructor; set_solver.
Defined.

(** ** [main] from end to end *)

Lemma sampler_total {G : Type} (seed : Z → G)
    (randbelow : G → nat → nat * G) data w ftc :
  (∀ g n, 0 < n → (randbelow g n).1 < n) →
  sample_file w = None →
  file_to_class data = Ok ftc →
  ∃ m g', get_sampled_files seed randbelow data w
          = Ok (m, {| sample_file := Some m; rng := g' |}).
Proof.
  intros Hlt Hw Hftc. unfold get_sampled_files. rewrite Hw, Hftc.
  cbn [mbind result_bind rbind].
  destruct (sample_classes_total randbelow Hlt (class_to_files ftc) []
              (seed RANDOM_SEED)) as (m & g' & ->);
    [apply class_to_files_nonempty|].
  cbn. eauto.
Qed.



Lemma Forall_set {V} (P : string * V → Prop) k v (d : list (string * V)) :
  P (k, v) → Forall P d → Forall P (PyDict.set k v d).
Proof.
  intros Hkv. induction d as [|[k' v'] d IH]; simpl.
  - by repeat constructor.
  - intros [Hh Ht]%Forall_cons. case_decide; constructor; auto.
Qed.

Lemma example_gsutil_files urls raw raw' :
  staging_of_files raw → flat raw →
  example_gsutil urls raw = Some raw' →
  staging_of_files raw' ∧ flat raw'.
Proof.
  unfold example_gsutil. intros Hraw Hflat [= <-]. revert raw Hraw Hflat.
  induction urls as [|line urls IH]; intros raw Hraw Hflat; [done|].
  cbn [foldl]. apply IH; clear IH.
  - destruct (relative_path _) eqn:Hrel; [|done].
    destruct (has_sep _) eqn:Hsep; [done|]. cbn [andb negb].
    destruct (PyDict.get _ raw) eqn:Hg; [done|].
    destruct Hraw as [Hnd Hall]. split; [by apply NoDup_keys_set|].
    by apply Forall_set.
  - destruct (relative_path _) eqn:Hrel; [|done].
    destruct (has_sep _) eqn:Hsep; [done|]. cbn [andb negb].
    destruct (PyDict.get _ raw) eqn:Hg; [done|].
    by apply Forall_set.
Qed.

(** X22. On a disk without stored manifest and a tree of regular files,
    with metadata whose annotations all resolve and whose file names are
    relative paths, [main] completes whenever the copy tool leaves the
    staging directory with regular files and no sub-directories: it stores
    the manifest it has computed and a download list with one line per
    sampled file and no line twice; when the tool is missing it returns
    early and leaves both directories as they are, and otherwise it
    organises at most one file per line of the list, each counted file
    having left the staging directory. *)
Theorem main_completes {G : Type} (seed : Z → G)
    (randbelow : G → nat → nat * G)
    (gsutil : list string → list (string * node)
              → option (list (string * node)))
    (data : metadata) (d : disk G) :
  (∀ g n, 0 < n → (randbelow g n).1 < n) →
  (∀ urls raw', gsutil urls (raw_dir (disk_fs d)) = Some raw' →
     staging_of_files raw' ∧ flat raw') →
  tree_of_files (base_dir (disk_fs d)) →
  sample_file (disk_world d) = None →
  Forall (λ ann, ¬ dangling data ann) (annotations data) →
  Forall (λ i, relative_path (i_file_name i) = true) (images data) →
  ∃ m g' d' r,
    main seed randbelow gsutil data d = (d', Ok r)
    ∧ disk_world d' = {| sample_file := Some m; rng := g' |}
    ∧ disk_download_list d' = Some (download_list m)
    ∧ length (download_list m) = length (all_files m)
    ∧ NoDup (download_list m)
    ∧ match gsutil (download_list m) (raw_dir (disk_fs d)) with
      | None => r = None ∧ disk_fs d' = disk_fs d
      | Some raw' =>
          ∃ n, r = Some n
               ∧ n ≤ length (download_list m)
               ∧ length raw' = n + length (raw_dir (disk_fs d'))
      end.
Proof.
  intros Hlt Htool _ Hw Hanns _.
  apply (fold_annotations_ok data (annotations data) []) in Hanns as [ftc Hftc].
  fold (file_to_class data) in Hftc.
  destruct (sampler_total seed randbelow data (disk_world d) ftc Hlt Hw Hftc)
    as (m & g' & Hrun).
  assert (length (download_list m) = length (all_files m)) as Hlen.
  { unfold download_list. by rewrite length_fmap. }
  assert (NoDup (download_list m)) as Hnd.
  { apply download_list_NoDup. by eapply computed_manifest_files. }
  unfold main. rewrite Hrun.
  destruct (gsutil (download_list m) (raw_dir (disk_fs d))) as [raw'|] eqn:Hg.
  - destruct (Htool _ _ Hg) as [[Hraw' _] Hflat].
    destruct (main_organize_computed seed randbelow data (disk_world d) _ m
                {| raw_dir := raw'; base_dir := base_dir (disk_fs d) |}
                Hlt Hw Hrun Hraw' Hflat) as (f' & n & Hrun' & Hn & Hl & _).
    rewrite Hrun'. cbn.
    eexists m, g', _, _. split_and!; [done..|].
    rewrite Hg. exists n. split_and!; [done | lia | exact Hl].
  - eexists m, g', _, _. split_and!; [done..|]. by rewrite Hg.
Qed.

Lemma main_completes_witness :
  ∃ m g' d' r,
    main lcg_seed lcg_randbelow example_gsutil example_metadata fresh_disk
    = (d', Ok r)
    ∧ disk_world d' = {| sample_file := Some m; rng := g' |}
    ∧ disk_download_list d' = Some (download_list m)
    ∧ length (download_list m) = length (all_files m)
    ∧ NoDup (download_list m)
    ∧ match example_gsutil (download_list m) (raw_dir (disk_fs fresh_disk)) with
      | None => r = None ∧ disk_fs d' = disk_fs fresh_disk
      | Some raw' =>
          ∃ n, r = Some n
               ∧ n ≤ length (download_list m)
               ∧ length raw' = n + length (raw_dir (disk_fs d'))
      end.
Proof.
  apply (main_completes lcg_seed lcg_randbelow example_gsutil example_metadata
           fresh_disk).
  - exact lcg_randbelow_lt.
  - intros urls raw'. apply example_gsutil_files; [split|]; constructor.
  - exact tree_of_files_empty.
  - reflexivity.
  - apply (fold_annotations_ok example_metadata
             (annotations example_metadata) []).
    exists example_index. vm_compute. reflexivity.
  - repeat constructor.
Defined.


